(** * KidTok front end: the PIN-gated settings store and the playback controller

    A shallow embedding of [src/SettingsContext.tsx] (the settings provider)
    and of the [ForYouScreen] component (playback, retry and the free
    selection cap), with the properties of the specification stated over it.

    Conventions of the embedding.
    - A React state variable is a field of a record.  A handler is a closure
      of one render: it reads the state variables through the constants bound
      by that render (the snapshot [r]) and writes through the setters, which
      act on the live state [s].  A functional update [setX(prev => ...)]
      reads the live state.  A handler invoked from the screen that is
      currently displayed has [r = s].
    - A promise either fulfils or rejects; whether a call of the storage or of
      the media engine rejects is an input of the transition.
    - [JSON.parse] and [JSON.stringify] belong to the JavaScript runtime and
      are taken as parameters: [JSON.parse] yields a JSON value or throws,
      [JSON.stringify] is applied to arrays of strings only.
    - A plain object used as a map ([videoErrors], [retryAttempts] and the two
      refs) is the finite map of its own properties; [o[key]] is read through
      [JS.get], which falls back on the members every object inherits from
      [Object.prototype]. *)

From Stdlib Require Import Ascii String.
From stdpp Require Import gmap strings list fin_maps pretty.

Open Scope string_scope.
Open Scope nat_scope.
Open Scope list_scope.

(** ** JavaScript values used by the source *)

Module JS.

(** Settled state of an awaited promise. *)
Inductive Promise (A : Type) : Type :=
| Fulfilled (a : A)
| Rejected.
Arguments Fulfilled {A} a.
Arguments Rejected {A}.

(** [if (s)] for [s : string | null]: null and the empty string are falsy. *)
Definition truthy (s : option string) : bool :=
  match s with
  | None => false
  | Some v => negb (bool_decide (v = ""))
  end.

(** [String(b)] for a boolean. *)
Definition String_of_bool (b : bool) : string :=
  if b then "true" else "false".

(** [xs.includes(x)] *)
Definition includes (x : string) (xs : list string) : bool :=
  bool_decide (x ∈ xs).

(** [xs.filter(y => y !== x)] *)
Definition without (x : string) (xs : list string) : list string :=
  filter (λ y, y ≠ x) xs.

(** The names of the members of [Object.prototype]. *)
Definition Object_prototype : list string :=
  ["constructor"; "__defineGetter__"; "__defineSetter__"; "hasOwnProperty";
   "__lookupGetter__"; "__lookupSetter__"; "isPrototypeOf";
   "propertyIsEnumerable"; "toString"; "valueOf"; "__proto__";
   "toLocaleString"].

Definition inherited (key : string) : bool :=
  bool_decide (key ∈ Object_prototype).

(** What [o[key]] finds on a plain object whose own properties are [o]: an
    own property, else the member of that name inherited from
    [Object.prototype] (a function, or the prototype itself for
    [__proto__]), else [undefined]. *)
Inductive Lookup (A : Type) : Type :=
| Own (a : A)
| Inherited
| Undefined.
Arguments Own {A} a.
Arguments Inherited {A}.
Arguments Undefined {A}.

Definition get {A : Type} (o : gmap string A) (key : string) : Lookup A :=
  match o !! key with
  | Some a => Own a
  | None => if inherited key then Inherited else Undefined
  end.

(** [!!o[key]] on an object whose own values are objects. *)
Definition has {A : Type} (o : gmap string A) (key : string) : bool :=
  match get o key with
  | Undefined => false
  | _ => true
  end.

(** A value found in [retryAttempts]: a number, or a value that is none (an
    inherited member, or the text that [+ 1] makes of one). *)
Inductive Count : Type :=
| Num (n : nat)
| NotNum.

(** [o[key] || 0] *)
Definition orZero (o : gmap string Count) (key : string) : Count :=
  match get o key with
  | Own c => c
  | Inherited => NotNum
  | Undefined => Num 0
  end.

(** [c + 1]: on a value that is no number, [+] concatenates texts. *)
Definition plus1 (c : Count) : Count :=
  match c with
  | Num n => Num (n + 1)
  | NotNum => NotNum
  end.

(** [c < bound]: a value that is no number converts to [NaN], which is
    below nothing. *)
Definition lessThan (c : Count) (bound : nat) : bool :=
  match c with
  | Num n => bool_decide (n < bound)
  | NotNum => false
  end.

End JS.

(** ** JSON values *)

Module JSON.

(** What [JSON.parse] can return; a number is kept as its numeral. *)
#[local] Unset Elimination Schemes.
Inductive value : Type :=
| Null
| Bool (b : bool)
| Number (numeral : string)
| Text (s : string)
| Array (items : list value)
| Object (fields : list (string * value)).
#[local] Set Elimination Schemes.

(** The array of strings [l] as a value. *)
Definition ofStrings (l : list string) : value := Array (Text <$> l).

Definition text (v : value) : option string :=
  match v with
  | Text s => Some s
  | _ => None
  end.

(** The list of strings a value is, when it is an array of strings. *)
Definition strings (v : value) : option (list string) :=
  match v with
  | Array items => mapM text items
  | _ => None
  end.

End JSON.

(** ** AsyncStorage: the durable key-value store

    A rejected write is taken to leave the stored entries as they were. *)

Module AsyncStorage.

Abbreviation t := (gmap string string).

Definition getItem (key : string) (ok : bool) (db : t)
  : JS.Promise (option string) :=
  if ok then JS.Fulfilled (db !! key) else JS.Rejected.

Definition setItem (key value : string) (ok : bool) (db : t)
  : JS.Promise unit * t :=
  if ok then (JS.Fulfilled (), <[key := value]> db) else (JS.Rejected, db).

Definition multiRemove (keys : list string) (ok : bool) (db : t)
  : JS.Promise unit * t :=
  if ok then (JS.Fulfilled (), foldr delete db keys) else (JS.Rejected, db).

End AsyncStorage.

(** ** SettingsContext.tsx *)

(** The state variables of [SettingsProvider].  [V] is what [selectedVideos]
    holds: the source declares it [string[]] ([Settings]), and nothing checks
    that what [loadSettings] installs is one ([RawSettings]). *)
Record SettingsOf (V : Type) : Type := mkSettings {
  isLoading : bool;
  isPinSet : bool;
  pin : option string;
  restrictedMode : bool;
  selectedVideos : V
}.
Arguments mkSettings {V} _ _ _ _ _.
Arguments isLoading {V} _.
Arguments isPinSet {V} _.
Arguments pin {V} _.
Arguments restrictedMode {V} _.
Arguments selectedVideos {V} _.

Abbreviation Settings := (SettingsOf (list string)).
Abbreviation RawSettings := (SettingsOf JSON.value).

(** The [useState] initial values of [SettingsProvider]. *)
Definition initialSettings : Settings :=
  {| isLoading := true; isPinSet := false; pin := None;
     restrictedMode := false; selectedVideos := [] |}.

Definition setIsLoading {V : Type} (b : bool) (s : SettingsOf V)
    : SettingsOf V :=
  {| isLoading := b; isPinSet := isPinSet s; pin := pin s;
     restrictedMode := restrictedMode s; selectedVideos := selectedVideos s |}.

Definition setIsPinSet {V : Type} (b : bool) (s : SettingsOf V)
    : SettingsOf V :=
  {| isLoading := isLoading s; isPinSet := b; pin := pin s;
     restrictedMode := restrictedMode s; selectedVideos := selectedVideos s |}.

Definition setPin {V : Type} (p : option string) (s : SettingsOf V)
    : SettingsOf V :=
  {| isLoading := isLoading s; isPinSet := isPinSet s; pin := p;
     restrictedMode := restrictedMode s; selectedVideos := selectedVideos s |}.

Definition setRestrictedMode {V : Type} (b : bool) (s : SettingsOf V)
    : SettingsOf V :=
  {| isLoading := isLoading s; isPinSet := isPinSet s; pin := pin s;
     restrictedMode := b; selectedVideos := selectedVideos s |}.

Definition setSelectedVideos {V W : Type} (l : W) (s : SettingsOf V)
    : SettingsOf W :=
  {| isLoading := isLoading s; isPinSet := isPinSet s; pin := pin s;
     restrictedMode := restrictedMode s; selectedVideos := l |}.

(** A state whose selection is an array of strings, as a state of the
    runtime; and back, when the selection is one. *)
Definition raw (s : Settings) : RawSettings :=
  setSelectedVideos (JSON.ofStrings (selectedVideos s)) s.

Definition typed (s : RawSettings) : option Settings :=
  (λ l, setSelectedVideos l s) <$> JSON.strings (selectedVideos s).

(** Whether each of the three [getItem] calls of [loadSettings] resolves. *)
Record ReadOutcomes : Type := mkReads {
  readPin : bool;
  readMode : bool;
  readVideos : bool
}.

Definition readsOk : ReadOutcomes :=
  {| readPin := true; readMode := true; readVideos := true |}.

Section SettingsProvider.

(** [JSON.parse]: the value the text denotes; [None] is a thrown
    [SyntaxError]. *)
Variable JSON_parse : string → option JSON.value.
Variable JSON_stringify : list string → string.

(** The [try] block of [loadSettings]: the state reached, and whether the
    block ran to its end ([Rejected]: an exception reached [catch]). *)
Definition loadSettings_try (io : ReadOutcomes) (db : AsyncStorage.t)
    (s : RawSettings) : JS.Promise unit * RawSettings :=
  match AsyncStorage.getItem "parentPin" (readPin io) db with
  | JS.Rejected => (JS.Rejected, s)
  | JS.Fulfilled storedPin =>
    let s1 := if JS.truthy storedPin
              then setIsPinSet true (setPin storedPin s) else s in
    match AsyncStorage.getItem "restrictedMode" (readMode io) db with
    | JS.Rejected => (JS.Rejected, s1)
    | JS.Fulfilled storedMode =>
      let s2 := setRestrictedMode (bool_decide (storedMode = Some "true")) s1 in
      match AsyncStorage.getItem "selectedVideos" (readVideos io) db with
      | JS.Rejected => (JS.Rejected, s2)
      | JS.Fulfilled storedVideos =>
        if JS.truthy storedVideos then
          match JSON_parse (default "" storedVideos) with
          | Some v => (JS.Fulfilled (), setSelectedVideos v s2)
          | None => (JS.Rejected, s2)
          end
        else (JS.Fulfilled (), setSelectedVideos (JSON.Array []) s2)
      end
    end
  end.

(** [loadSettings]: [catch] logs, [finally] clears the loading flag. *)
Definition loadSettings (io : ReadOutcomes) (db : AsyncStorage.t)
    (s : RawSettings) : RawSettings :=
  setIsLoading false (loadSettings_try io db s).2.

(** What the caller of [load()] sees. *)
Definition load (io : ReadOutcomes) (db : AsyncStorage.t) : RawSettings :=
  loadSettings io db (raw initialSettings).

Definition savePin (newPin : string) (ok : bool)
    (w : Settings * AsyncStorage.t) : bool * (Settings * AsyncStorage.t) :=
  match AsyncStorage.setItem "parentPin" newPin ok w.2 with
  | (JS.Fulfilled _, db) =>
      (true, (setIsPinSet true (setPin (Some newPin) w.1), db))
  | (JS.Rejected, db) => (false, (w.1, db))
  end.

Definition verifyPin {V : Type} (r : SettingsOf V) (enteredPin : string)
    : bool :=
  bool_decide (Some enteredPin = pin r).

(** The list [toggleVideoSelectionInContext] computes from the selection
    [selected] its render holds. *)
Definition newSelectedVideos (selected : list string) (videoId : string)
    : list string :=
  if JS.includes videoId selected
  then JS.without videoId selected
  else selected ++ [videoId].

Definition toggleVideoSelectionInContext (r : Settings) (videoId : string)
    (ok : bool) (w : Settings * AsyncStorage.t)
    : JS.Promise unit * (Settings * AsyncStorage.t) :=
  let new := newSelectedVideos (selectedVideos r) videoId in
  let s := setSelectedVideos new w.1 in
  let '(p, db) := AsyncStorage.setItem "selectedVideos"
                    (JSON_stringify new) ok w.2 in
  (p, (s, db)).

Definition toggleRestrictedMode (r : Settings) (ok : bool)
    (w : Settings * AsyncStorage.t)
    : JS.Promise unit * (Settings * AsyncStorage.t) :=
  let newMode := negb (restrictedMode r) in
  let s := setRestrictedMode newMode w.1 in
  let '(p, db) := AsyncStorage.setItem "restrictedMode"
                    (JS.String_of_bool newMode) ok w.2 in
  (p, (s, db)).

Definition clearSettings (ok : bool) (w : Settings * AsyncStorage.t)
    : JS.Promise unit * (Settings * AsyncStorage.t) :=
  match AsyncStorage.multiRemove
          ["parentPin"; "restrictedMode"; "selectedVideos"] ok w.2 with
  | (JS.Fulfilled _, db) =>
      (JS.Fulfilled (),
       (setSelectedVideos []
          (setRestrictedMode false (setIsPinSet false (setPin None w.1))), db))
  | (JS.Rejected, db) => (JS.Rejected, (w.1, db))
  end.

End SettingsProvider.

(** ** ForYouScreen: data *)

Definition MAX_FREE_SELECTIONS : nat := 5.
Definition MAX_RETRY_ATTEMPTS : nat := 3.

Module VideoData.
Record t : Type := mk { id : string; url : string }.
End VideoData.

Record VideoError : Type := mkVideoError { message : string }.

(** The part of [AVPlaybackStatus] the screen looks at. *)
Record AVPlaybackStatus : Type := mkStatus {
  isLoaded : bool;
  isPlaying : bool;
  didJustFinish : bool;
  error : option string
}.

(** Replies of the media engine: a value, or a thrown [Error] with its message. *)
Module Engine.
Inductive Reply (A : Type) : Type :=
| Ok (a : A)
| Throws (message : string).
Arguments Ok {A} a.
Arguments Throws {A} message.
End Engine.

(** State variables and refs of [ForYouScreen].  [videoRefs] holds, for an
    item, [true] for its player component and [false] for the [null] that
    replaces it at unmount; in [videoStatusCache] an entry set to [null] is
    [None].  Both are refs ([useRef]), shared by all renders, so a handler
    reads them from the live state.  The refs are written by assignment,
    which on the key [__proto__] would replace the prototype of the object:
    no item is taken to have that id. *)
Record ForYou : Type := mkForYou {
  hasSimulatedPremium : bool;
  isSimulatingPurchase : bool;
  currentlyPlaying : option string;
  videoToPlayIntent : option string;
  backendVideos : list VideoData.t;
  videoErrors : gmap string VideoError;
  retryAttempts : gmap string JS.Count;
  videoRefs : gmap string bool;
  videoStatusCache : gmap string (option AVPlaybackStatus)
}.

Definition setCurrentlyPlaying (v : option string) (s : ForYou) : ForYou :=
  {| hasSimulatedPremium := hasSimulatedPremium s;
     isSimulatingPurchase := isSimulatingPurchase s;
     currentlyPlaying := v;
     videoToPlayIntent := videoToPlayIntent s;
     backendVideos := backendVideos s;
     videoErrors := videoErrors s;
     retryAttempts := retryAttempts s;
     videoRefs := videoRefs s;
     videoStatusCache := videoStatusCache s |}.

Definition setVideoToPlayIntent (v : option string) (s : ForYou) : ForYou :=
  {| hasSimulatedPremium := hasSimulatedPremium s;
     isSimulatingPurchase := isSimulatingPurchase s;
     currentlyPlaying := currentlyPlaying s;
     videoToPlayIntent := v;
     backendVideos := backendVideos s;
     videoErrors := videoErrors s;
     retryAttempts := retryAttempts s;
     videoRefs := videoRefs s;
     videoStatusCache := videoStatusCache s |}.

(** [setVideoErrors(prev => f prev)] *)
Definition setVideoErrors
    (f : gmap string VideoError → gmap string VideoError) (s : ForYou) : ForYou :=
  {| hasSimulatedPremium := hasSimulatedPremium s;
     isSimulatingPurchase := isSimulatingPurchase s;
     currentlyPlaying := currentlyPlaying s;
     videoToPlayIntent := videoToPlayIntent s;
     backendVideos := backendVideos s;
     videoErrors := f (videoErrors s);
     retryAttempts := retryAttempts s;
     videoRefs := videoRefs s;
     videoStatusCache := videoStatusCache s |}.

(** [setRetryAttempts(prev => f prev)] *)
Definition setRetryAttempts
    (f : gmap string JS.Count → gmap string JS.Count) (s : ForYou) : ForYou :=
  {| hasSimulatedPremium := hasSimulatedPremium s;
     isSimulatingPurchase := isSimulatingPurchase s;
     currentlyPlaying := currentlyPlaying s;
     videoToPlayIntent := videoToPlayIntent s;
     backendVideos := backendVideos s;
     videoErrors := videoErrors s;
     retryAttempts := f (retryAttempts s);
     videoRefs := videoRefs s;
     videoStatusCache := videoStatusCache s |}.

(** [videoStatusCache.current[videoId] = v] *)
Definition cacheStatus (videoId : string) (v : option AVPlaybackStatus)
    (s : ForYou) : ForYou :=
  {| hasSimulatedPremium := hasSimulatedPremium s;
     isSimulatingPurchase := isSimulatingPurchase s;
     currentlyPlaying := currentlyPlaying s;
     videoToPlayIntent := videoToPlayIntent s;
     backendVideos := backendVideos s;
     videoErrors := videoErrors s;
     retryAttempts := retryAttempts s;
     videoRefs := videoRefs s;
     videoStatusCache := <[videoId := v]> (videoStatusCache s) |}.

(** [!!videoRefs.current[videoId]]: a player component is truthy, and so is
    an inherited member, which is no player. *)
Definition videoRef (s : ForYou) (videoId : string) : bool :=
  match JS.get (videoRefs s) videoId with
  | JS.Own b => b
  | JS.Inherited => true
  | JS.Undefined => false
  end.

(** ** ForYouScreen: handlers *)

Definition handleVideoError (r : ForYou) (videoId : string)
    (error_message : string) (s : ForYou) : ForYou :=
  let errorMessage :=
    if bool_decide (error_message = "")
    then "An unknown video error occurred" else error_message in
  let s1 := setVideoErrors
              (λ prev, <[videoId := {| message := errorMessage |}]> prev) s in
  let s2 := setRetryAttempts
              (λ prev, <[videoId := JS.plus1 (JS.orZero prev videoId)]> prev)
              s1 in
  let s3 := if bool_decide (currentlyPlaying r = Some videoId)
            then setCurrentlyPlaying None s2 else s2 in
  let s4 := if bool_decide (videoToPlayIntent r = Some videoId)
            then setVideoToPlayIntent None s3 else s3 in
  cacheStatus videoId None s4.

Definition retryVideo (videoId : string) (s : ForYou) : ForYou :=
  let s1 := setVideoErrors (λ prev, delete videoId prev) s in
  let s2 := setRetryAttempts (λ prev, delete videoId prev) s1 in
  setVideoToPlayIntent (Some videoId) s2.

(** One run of [performPlayback] that reached its first [await]: the render
    whose closure it is, the id it plays, whether its 12 s timer is still
    armed, and whether the run has finished. *)
Record Attempt : Type := mkAttempt {
  a_render : ForYou;
  a_videoId : string;
  a_timer : bool;
  a_done : bool
}.

(** [performPlayback] up to its first [await].  The calls of the engine
    ([unloadAsync], [loadAsync], [playAsync]) change no state variable; what
    they reply is the [LoadOutcome] of the run. *)
Definition performPlayback_begin (r s : ForYou) : ForYou * option Attempt :=
  if negb (JS.truthy (videoToPlayIntent r)) then (s, None) else
  match videoToPlayIntent r with
  | None => (s, None)
  | Some videoId =>
    let videoRef := videoRef s videoId in
    let videoData :=
      find (λ v, bool_decide (VideoData.id v = videoId)) (backendVideos r) in
    let s1 := setVideoErrors (λ prev, delete videoId prev) s in
    if negb videoRef then
      (setVideoToPlayIntent None
         (handleVideoError r videoId "Player not ready." s1), None)
    else if negb (JS.truthy (VideoData.url <$> videoData)) then
      (setVideoToPlayIntent None
         (handleVideoError r videoId "Video data missing." s1), None)
    else
      (setCurrentlyPlaying (Some videoId) s1,
       Some {| a_render := r; a_videoId := videoId;
               a_timer := true; a_done := false |})
  end.

(** The callback of the 12 s [setTimeout]. *)
Definition performPlayback_timeout (a : Attempt) (s : ForYou) : ForYou :=
  handleVideoError (a_render a) (a_videoId a) "Video loading timed out." s.

(** How the awaited part of [performPlayback] ends: [unloadAsync] or
    [loadAsync] throws, or [loadAsync] yields a status and [playAsync], when
    it is called, replies [play]. *)
Inductive LoadOutcome : Type :=
| LoadThrew (message : string)
| LoadResolved (status : AVPlaybackStatus) (play : Engine.Reply unit).

(** [performPlayback] from the first [await] to the end of [finally]. *)
Definition performPlayback_settle (a : Attempt) (o : LoadOutcome)
    (s : ForYou) : ForYou :=
  let r := a_render a in
  let videoId := a_videoId a in
  let s' :=
    match o with
    | LoadThrew m => handleVideoError r videoId m s
    | LoadResolved status play =>
      let s1 := cacheStatus videoId (Some status) s in
      if isLoaded status && negb (isPlaying status) then
        match play with
        | Engine.Ok _ => s1
        | Engine.Throws m => handleVideoError r videoId m s1
        end
      else if negb (isLoaded status) then
        handleVideoError r videoId "Failed to load video content." s1
      else s1
    end in
  setVideoToPlayIntent None s'.

(** Replies of the engine while [handleVideoPlayback] runs. *)
Record Player : Type := mkPlayer {
  getStatusAsync : Engine.Reply AVPlaybackStatus;
  playOrPause : Engine.Reply unit
}.

(** [handleVideoPlayback], with the reply of [checkNetworkStatus] as
    [online].  An inherited member found in the cache is truthy and has no
    [isLoaded].  Pausing the item that was playing before is a call of the
    engine only, on the player [videoRefs] holds for that item (it became
    current after the test of [performPlayback] on its entry). *)
Definition handleVideoPlayback (r : ForYou) (videoId : string)
    (online : bool) (p : Player) (s : ForYou) : ForYou :=
  if negb online then handleVideoError r videoId "No internet connection." s
  else
    let videoRef := videoRef s videoId in
    if bool_decide (currentlyPlaying r = Some videoId) && videoRef then
      let toggle (st : AVPlaybackStatus) :=
        if isLoaded st then
          let s1 := cacheStatus videoId (Some st) s in
          match playOrPause p with
          | Engine.Ok _ => s1
          | Engine.Throws m => handleVideoError r videoId m s1
          end
        else setVideoToPlayIntent (Some videoId) s in
      match JS.get (videoStatusCache s) videoId with
      | JS.Own (Some st) => toggle st
      | JS.Inherited => setVideoToPlayIntent (Some videoId) s
      | _ =>
        match getStatusAsync p with
        | Engine.Ok st => toggle st
        | Engine.Throws m => handleVideoError r videoId m s
        end
      end
    else setVideoToPlayIntent (Some videoId) s.

(** The callbacks of the player of an item run while it is mounted, when
    [videoRefs] holds it: the [unloadAsync] of a finished item is a call of
    the engine only. *)
Definition onPlaybackStatusUpdate (r : ForYou) (item_id : string)
    (status : AVPlaybackStatus) (s : ForYou) : ForYou :=
  let s1 := cacheStatus item_id (Some status) s in
  if bool_decide (Some item_id = currentlyPlaying r) && isLoaded status then
    match error status with
    | Some e => handleVideoError r item_id e s1
    | None => if didJustFinish status then setCurrentlyPlaying None s1 else s1
    end
  else s1.

Definition onError (r : ForYou) (item_id : string) (errorMsg : string)
    (s : ForYou) : ForYou :=
  handleVideoError r item_id ("Player error: " +:+ errorMsg) s.

(** What [renderVideoItem] shows for an item (one with an id and a url; for
    any other it renders nothing). *)
Record Rendered : Type := mkRendered {
  isSelected : bool;
  hasError : bool;
  canRetry : bool;
  showVideoPlayer : bool;
  playButton : bool;
  retryButton : bool;
  maxRetriesText : bool;
  pauseButton : bool
}.

Definition renderVideoItem (r : ForYou) (selected : list string)
    (item_id : string) : Rendered :=
  let isSelected := JS.includes item_id selected in
  let isPlaying := bool_decide (currentlyPlaying r = Some item_id) in
  let hasError := JS.has (videoErrors r) item_id in
  let canRetry :=
    JS.lessThan (JS.orZero (retryAttempts r) item_id) MAX_RETRY_ATTEMPTS in
  let showVideoPlayer := isPlaying && negb hasError in
  {| isSelected := isSelected;
     hasError := hasError;
     canRetry := canRetry;
     showVideoPlayer := showVideoPlayer;
     playButton := negb showVideoPlayer && negb hasError;
     retryButton := negb showVideoPlayer && hasError && canRetry;
     maxRetriesText := negb showVideoPlayer && hasError && negb canRetry;
     pauseButton := isPlaying && negb hasError |}.

(** What a press on the select control comes to. *)
Inductive Selection : Type :=
| Ignored
| UpgradeAlert
| Toggled (p : JS.Promise unit).

(** One run of the screen: its state, the settings context with the storage
    behind it, and the runs of [performPlayback] started so far. *)
Record World : Type := mkWorld {
  screen : ForYou;
  context : Settings * AsyncStorage.t;
  attempts : list Attempt
}.

Inductive Event : Type :=
| PressPlay (videoId : string) (online : bool) (p : Player)
| PressRetry (videoId : string)
| PressSelect (videoId : string) (ok : bool)
| LoadSettles (n : nat) (o : LoadOutcome)
| LoadTimesOut (n : nat)
| PlaybackStatusUpdate (videoId : string) (status : AVPlaybackStatus)
| PlayerError (videoId : string) (errorMsg : string).

Definition settleAttempt (a : Attempt) : Attempt :=
  {| a_render := a_render a; a_videoId := a_videoId a;
     a_timer := false; a_done := true |}.

Definition disarmTimer (a : Attempt) : Attempt :=
  {| a_render := a_render a; a_videoId := a_videoId a;
     a_timer := false; a_done := a_done a |}.

Section ForYouScreen.

Variable JSON_stringify : list string → string.

(** [rs] is the settings value the screen's render received from the
    context. *)
Definition handleToggleVideoSelection (r : ForYou) (rs : Settings)
    (videoId : string) (ok : bool) (w : Settings * AsyncStorage.t)
    : Selection * (Settings * AsyncStorage.t) :=
  if isSimulatingPurchase r then (Ignored, w)
  else
    let isCurrentlySelected := JS.includes videoId (selectedVideos rs) in
    if negb isCurrentlySelected
       && bool_decide (MAX_FREE_SELECTIONS ≤ length (selectedVideos rs))
       && negb (hasSimulatedPremium r)
    then (UpgradeAlert, w)
    else
      let '(p, w') :=
        toggleVideoSelectionInContext JSON_stringify rs videoId ok w in
      (Toggled p, w').

(** The effect with dependency [videoToPlayIntent]: after a render in which
    the intent differs from the one of the render before, [performPlayback]
    runs as a closure of the new render. *)
Definition useEffect_playback (before : option string) (w : World) : World :=
  if bool_decide (videoToPlayIntent (screen w) = before) then w
  else
    let '(s, a) := performPlayback_begin (screen w) (screen w) in
    {| screen := s; context := context w;
       attempts := attempts w ++ option_list a |}.

Definition withScreen (s : ForYou) (w : World) : World :=
  {| screen := s; context := context w; attempts := attempts w |}.

(** An event handled on the displayed render ([r = s]); a press on a
    control that [renderVideoItem] does not show is no event.  Events are
    taken to arrive while the list is on display (the screen replaces it by
    a loading view while settings or videos load or a purchase is
    processed). *)
Definition handle (w : World) (e : Event) : World :=
  let s := screen w in
  let item := renderVideoItem s (selectedVideos (context w).1) in
  match e with
  | PressPlay videoId online p =>
    if playButton (item videoId) || pauseButton (item videoId)
    then withScreen (handleVideoPlayback s videoId online p s) w else w
  | PressRetry videoId =>
    if retryButton (item videoId)
    then withScreen (retryVideo videoId s) w else w
  | PressSelect videoId ok =>
    {| screen := s;
       context := (handleToggleVideoSelection s (context w).1 videoId ok
                     (context w)).2;
       attempts := attempts w |}
  | LoadSettles n o =>
    match attempts w !! n with
    | Some a =>
      if a_done a then w
      else {| screen := performPlayback_settle a o s; context := context w;
              attempts := <[n := settleAttempt a]> (attempts w) |}
    | None => w
    end
  | LoadTimesOut n =>
    match attempts w !! n with
    | Some a =>
      if a_timer a && negb (a_done a)
      then {| screen := performPlayback_timeout a s; context := context w;
              attempts := <[n := disarmTimer a]> (attempts w) |}
      else w
    | None => w
    end
  | PlaybackStatusUpdate videoId status =>
    withScreen (onPlaybackStatusUpdate s videoId status s) w
  | PlayerError videoId errorMsg =>
    withScreen (onError s videoId errorMsg s) w
  end.

Definition step (w : World) (e : Event) : World :=
  useEffect_playback (videoToPlayIntent (screen w)) (handle w e).

Definition run (w : World) (es : list Event) : World := foldl step w es.

End ForYouScreen.

(** The invariant of the playback state: the item that is currently playing
    has no entry in [videoErrors]. *)
Definition errored_not_playing (s : ForYou) : Prop :=
  ∀ videoId, currentlyPlaying s = Some videoId → videoErrors s !! videoId = None.

(** ** Sessions of the settings store *)

Inductive SessionOp : Type :=
| SavePin (newPin : string) (ok : bool)
| ToggleSelection (videoId : string) (ok : bool)
| ToggleRestricted (ok : bool)
| Clear (ok : bool).

Section Sessions.

Variable JSON_parse : string → option JSON.value.
Variable JSON_stringify : list string → string.

(** The provider mounts with its initial state and [loadSettings] runs.  A
    session of operations on the selection as the source types it starts
    from there when the load left an array of strings in [selectedVideos]. *)
Definition launch (io : ReadOutcomes) (db : AsyncStorage.t)
    : option (Settings * AsyncStorage.t) :=
  (λ s, (s, db)) <$> typed (load JSON_parse io db).

(** One operation, called from the render that shows the state. *)
Definition sessionStep (w : Settings * AsyncStorage.t) (op : SessionOp)
    : Settings * AsyncStorage.t :=
  match op with
  | SavePin newPin ok => (savePin newPin ok w).2
  | ToggleSelection videoId ok =>
      (toggleVideoSelectionInContext JSON_stringify w.1 videoId ok w).2
  | ToggleRestricted ok => (toggleRestrictedMode w.1 ok w).2
  | Clear ok => (clearSettings ok w).2
  end.

Definition runSession (ops : list SessionOp) (w : Settings * AsyncStorage.t)
    : Settings * AsyncStorage.t :=
  foldl sessionStep w ops.

End Sessions.

(** The PIN of the last [savePin] that succeeded, [None] after a [clearSettings]
    that succeeded; [p0] is the PIN held when the operations start. *)
Definition lastPinSet (ops : list SessionOp) (p0 : option string)
    : option string :=
  foldl (λ p op, match op with
                 | SavePin newPin true => Some newPin
                 | Clear true => None
                 | _ => p
                 end) p0 ops.

(** Whether a [savePin] has succeeded since the last [clearSettings] that
    succeeded; [b0] is the answer when the operations start. *)
Definition savedSinceClear (ops : list SessionOp) (b0 : bool) : bool :=
  foldl (λ b op, match op with
                 | SavePin _ true => true
                 | Clear true => false
                 | _ => b
                 end) b0 ops.

(** How often [videoId] is toggled by [ops]. *)
Definition togglesOf (videoId : string) (op : SessionOp) : bool :=
  match op with
  | ToggleSelection v _ => bool_decide (v = videoId)
  | _ => false
  end.

Definition timesToggled (videoId : string) (ops : list SessionOp) : nat :=
  length (List.filter (togglesOf videoId) ops).

(** The toggle calls of a sequence of pairs (id, whether the write succeeds). *)
Definition toggleCalls (calls : list (string * bool)) : list SessionOp :=
  (λ c, ToggleSelection c.1 c.2) <$> calls.

(** ** A JSON codec for lists of plain identifiers

    [JSON.stringify] on arrays of strings that need no escape (no quote, no
    backslash), and [JSON.parse] on the texts it writes and on the literal
    [null]: the texts on which the examples below run the provider. *)

Module PlainJSON.

Definition quote : ascii := ascii_of_nat 34.
Definition backslash : ascii := ascii_of_nat 92.

Definition quoted (s : string) : string :=
  String quote (s +:+ String quote "").

Definition stringify (l : list string) : string :=
  "[" +:+ String.concat "," (quoted <$> l) +:+ "]".

(** What the scanner expects next. *)
Inductive Expect : Type :=
| Opening | ItemOrClosing | Item | Chars | CommaOrClosing | Nothing.

Fixpoint scan (e : Expect) (acc : string) (items : list string)
    (s : string) : option (list string) :=
  match s with
  | EmptyString =>
    match e with Nothing => Some (reverse items) | _ => None end
  | String c s' =>
    match e with
    | Opening =>
      if bool_decide (c = "["%char) then scan ItemOrClosing "" items s'
      else None
    | ItemOrClosing =>
      if bool_decide (c = quote) then scan Chars "" items s'
      else if bool_decide (c = "]"%char) then scan Nothing "" items s'
      else None
    | Item =>
      if bool_decide (c = quote) then scan Chars "" items s' else None
    | Chars =>
      if bool_decide (c = quote)
      then scan CommaOrClosing "" (String.rev acc :: items) s'
      else if bool_decide (c = backslash) then None
      else scan Chars (String c acc) items s'
    | CommaOrClosing =>
      if bool_decide (c = ","%char) then scan Item "" items s'
      else if bool_decide (c = "]"%char) then scan Nothing "" items s'
      else None
    | Nothing => None
    end
  end.

Definition parse (s : string) : option JSON.value :=
  if bool_decide (s = "null") then Some JSON.Null
  else JSON.ofStrings <$> scan Opening "" [] s.

End PlainJSON.

(** ** Auxiliary definitions for the statements *)

(** The message [handleVideoError] records for an error. *)
Definition recorded (error_message : string) : VideoError :=
  {| message := if bool_decide (error_message = "")
                then "An unknown video error occurred" else error_message |}.

(** The message with which an outcome makes [performPlayback] call
    [handleVideoError], if it does. *)
Definition settleFails (o : LoadOutcome) : option string :=
  match o with
  | LoadThrew m => Some m
  | LoadResolved status play =>
    if isLoaded status && negb (isPlaying status) then
      match play with Engine.Ok _ => None | Engine.Throws m => Some m end
    else if negb (isLoaded status) then Some "Failed to load video content."
    else None
  end.

(** The error entry and the retry count of [other] are the same in [s'] as
    in [s]. *)
Definition untouched (other : string) (s s' : ForYou) : Prop :=
  videoErrors s' !! other = videoErrors s !! other
  ∧ retryAttempts s' !! other = retryAttempts s !! other.

(** [videoRefs] holds a player for [videoId] and the list holds a url for
    it. *)
Definition playable (s : ForYou) (videoId : string) : Prop :=
  videoId ≠ ""
  ∧ videoRef s videoId = true
  ∧ JS.truthy
      (VideoData.url
       <$> find (λ v, bool_decide (VideoData.id v = videoId)) (backendVideos s))
    = true.

(** The run [n] of [performPlayback] has ended: it is done and its timer is
    cleared. *)
Definition ended (w : World) (n : nat) : Prop :=
  ∃ a, attempts w !! n = Some a ∧ a_done a = true ∧ a_timer a = false.

(** The retry count of [videoId] has reached the cap with its error
    uncleared. *)
Definition exhausted (s : ForYou) (videoId : string) : Prop :=
  is_Some (videoErrors s !! videoId)
  ∧ ∃ n, retryAttempts s !! videoId = Some (JS.Num n) ∧ MAX_RETRY_ATTEMPTS ≤ n.

(** The state in which a run of [performPlayback] for [videoId] waits for
    its load, started as a closure of the render [s]; and that run. *)
Definition pendingState (videoId : string) (s : ForYou) : ForYou :=
  setCurrentlyPlaying (Some videoId)
    (setVideoErrors (λ prev, delete videoId prev) s).

Definition startedRun (videoId : string) (s : ForYou) : Attempt :=
  {| a_render := s; a_videoId := videoId; a_timer := true; a_done := false |}.

(** ** Example inputs *)

Module Examples.

Definition video (videoId : string) : VideoData.t :=
  VideoData.mk videoId ("https://cdn.example/" +:+ videoId +:+ ".mp4").

(** The screen after the list of two videos has loaded: nothing plays,
    nothing has failed, both players are mounted. *)
Definition idle : ForYou :=
  {| hasSimulatedPremium := false;
     isSimulatingPurchase := false;
     currentlyPlaying := None;
     videoToPlayIntent := None;
     backendVideos := [video "a"; video "b"];
     videoErrors := ∅;
     retryAttempts := ∅;
     videoRefs := {["a" := true; "b" := true]};
     videoStatusCache := ∅ |}.

Definition loaded : Settings := setIsLoading false initialSettings.

Definition world0 : World :=
  {| screen := idle; context := (loaded, ∅); attempts := [] |}.

Definition player : Player :=
  {| getStatusAsync := Engine.Throws "no status"; playOrPause := Engine.Ok () |}.

(** Item ["a"] after three failures, its error still shown. *)
Definition exhausted : ForYou :=
  setRetryAttempts (λ _, {["a" := JS.Num 3]})
    (setVideoErrors (λ _, {["a" := {| message := "Failed to load video content." |}]})
       idle).

(** The settings with five videos selected, and with one. *)
Definition five : Settings :=
  setSelectedVideos ["v1"; "v2"; "v3"; "v4"; "v5"] loaded.

Definition one : Settings := setSelectedVideos ["a"] loaded.


(** The run of [performPlayback] for ["b"] started from [idle], and the
    screen after a request for ["a"] has overtaken it. *)
Definition overtaken : Attempt :=
  {| a_render := setVideoToPlayIntent (Some "b") idle; a_videoId := "b";
     a_timer := true; a_done := false |}.

Definition pendingA : ForYou :=
  setCurrentlyPlaying (Some "a") (setVideoToPlayIntent (Some "a") idle).

Definition playing : AVPlaybackStatus :=
  {| isLoaded := true; isPlaying := true; didJustFinish := false;
     error := None |}.

End Examples.

(** ** Agreement of the state in memory with the storage *)

(** The PIN in memory is the stored one. *)
Definition pinMirrors (w : Settings * AsyncStorage.t) : Prop :=
  pin w.1 = w.2 !! "parentPin".

(** The restricted-mode flag in memory is the one a load would read. *)
Definition modeMirrors (w : Settings * AsyncStorage.t) : Prop :=
  restrictedMode w.1 = bool_decide (w.2 !! "restrictedMode" = Some "true").

(** No [toggleRestrictedMode] of the session failed to write. *)
Definition modeWritesOk (ops : list SessionOp) : Prop :=
  Forall (λ op, op ≠ ToggleRestricted false) ops.

(** ** SettingsScreen.tsx: resetting the settings *)

Module SettingsScreen.

(** Local state of the screen. *)
Record State : Type := mk {
  isLoading : bool;
  showResetModal : bool
}.

Inductive Shown : Type :=
| ResetDone      (* Alert 'Success', 'All settings have been reset.' *)
| ResetFailed.   (* Alert 'Error', 'Failed to reset settings.' *)

(** [handleResetSettings]: [ok] is whether [multiRemove] resolves. *)
Definition handleResetSettings (ok : bool) (s : State)
    (w : Settings * AsyncStorage.t)
    : Shown * State * (Settings * AsyncStorage.t) :=
  match clearSettings ok w with
  | (JS.Fulfilled _, w') =>
      (ResetDone, {| isLoading := false; showResetModal := false |}, w')
  | (JS.Rejected, w') =>
      (ResetFailed, {| isLoading := false; showResetModal := false |}, w')
  end.

End SettingsScreen.

(** ** PinSetupScreen.tsx

    [pin.length] is taken as the number of characters of the string (the
    fields take digits). *)

Module PinSetup.

Record State : Type := mk {
  pin : string;
  confirmPin : string;
  isLoading : bool;
  alertVisible : bool;
  alertTitle : string;
  alertMessage : string
}.

Inductive Outcome : Type :=
| MissingInput    (* Alert 'Missing Input' *)
| PinTooShort     (* Alert 'PIN Too Short' *)
| PinMismatch     (* Alert 'PIN Mismatch' *)
| Saved           (* the success popup is shown *)
| NotSaved.       (* Alert 'Error', 'Could not set PIN. Please try again.' *)

Definition setIsLoading (b : bool) (s : State) : State :=
  {| pin := pin s; confirmPin := confirmPin s; isLoading := b;
     alertVisible := alertVisible s; alertTitle := alertTitle s;
     alertMessage := alertMessage s |}.

Definition showSuccess (s : State) : State :=
  {| pin := pin s; confirmPin := confirmPin s; isLoading := isLoading s;
     alertVisible := true; alertTitle := "Success";
     alertMessage := "Parent PIN has been set successfully." |}.

(** [handleSetPin], called from the displayed render; [ok] is whether the
    write of [savePin] resolves. *)
Definition handleSetPin (ok : bool) (s : State)
    (w : Settings * AsyncStorage.t)
    : Outcome * State * (Settings * AsyncStorage.t) :=
  if negb (JS.truthy (Some (pin s))) || negb (JS.truthy (Some (confirmPin s)))
  then (MissingInput, s, w)
  else if bool_decide (String.length (pin s) < 4) then (PinTooShort, s, w)
  else if negb (bool_decide (pin s = confirmPin s)) then (PinMismatch, s, w)
  else
    match savePin (pin s) ok w with
    | (true, w') => (Saved, setIsLoading false (showSuccess s), w')
    | (false, w') => (NotSaved, setIsLoading false s, w')
    end.

End PinSetup.

(** ** PinEntryScreen *)

Module PinEntry.

Record State : Type := mk {
  enteredPin : string;
  attempts : nat;
  alertVisible : bool;
  alertTitle : string;
  alertMessage : string;
  isSuccess : bool
}.

Definition initial : State :=
  {| enteredPin := ""; attempts := 0; alertVisible := false;
     alertTitle := ""; alertMessage := ""; isSuccess := false |}.

Inductive Route : Type :=
| ToSettings   (* router.replace '/Settings' *)
| Back.        (* router.back() *)

(** [handleTextChange={setEnteredPin}] *)
Definition setEnteredPin (v : string) (s : State) : State :=
  {| enteredPin := v; attempts := attempts s; alertVisible := alertVisible s;
     alertTitle := alertTitle s; alertMessage := alertMessage s;
     isSuccess := isSuccess s |}.

Definition showAlert (title msg : string) (success : bool) (s : State) : State :=
  {| enteredPin := enteredPin s; attempts := attempts s; alertVisible := true;
     alertTitle := title; alertMessage := msg; isSuccess := success |}.

(** [handleVerifyPin], called from the displayed render; [settings] is the
    value of the settings context in that render. *)
Definition handleVerifyPin (settings : Settings) (s : State) : State :=
  if bool_decide (String.length (enteredPin s) < 4) then
    showAlert "Invalid PIN" "Please enter a complete 4-digit PIN." false s
  else if verifyPin settings (enteredPin s) then
    showAlert "Success!" "PIN verified successfully." true s
  else
    let newAttempts := attempts s + 1 in
    let s1 := {| enteredPin := ""; attempts := newAttempts;
                 alertVisible := alertVisible s; alertTitle := alertTitle s;
                 alertMessage := alertMessage s; isSuccess := isSuccess s |} in
    if bool_decide (3 ≤ newAttempts) then
      showAlert "Too Many Attempts" "Please try again later." false s1
    else
      showAlert "Incorrect PIN"
        ("You have " +:+ pretty (3 - newAttempts) +:+ " attempts remaining.")
        false s1.

Definition handleAlertClose (s : State) : State * option Route :=
  let s1 := {| enteredPin := enteredPin s; attempts := attempts s;
               alertVisible := false; alertTitle := alertTitle s;
               alertMessage := alertMessage s; isSuccess := isSuccess s |} in
  if isSuccess s then (s1, Some ToSettings)
  else if bool_decide (3 ≤ attempts s) then (s1, Some Back)
  else (s1, None).

(** What the user does on the screen. *)
Inductive Action : Type :=
| TypePin (v : string)
| PressUnlock
| CloseAlert.

Definition act (settings : Settings) (s : State) (a : Action)
    : State * option Route :=
  match a with
  | TypePin v => (setEnteredPin v s, None)
  | PressUnlock => (handleVerifyPin settings s, None)
  | CloseAlert => handleAlertClose s
  end.

(** The screen after the actions, with the routes taken on the way; the
    screen is left at the first route. *)
Fixpoint session (settings : Settings) (s : State) (acts : list Action)
    : State * option Route :=
  match acts with
  | [] => (s, None)
  | a :: rest =>
    match act settings s a with
    | (s', Some route) => (s', Some route)
    | (s', None) => session settings s' rest
    end
  end.

End PinEntry.

(** ** PinInput.tsx *)

Module PinInput.

Definition PIN_LENGTH : nat := 4.

(** The labels of the keypad, row by row. *)
Definition keys (showCancel : bool) : list string :=
  ["1"; "2"; "3"; "4"; "5"; "6"; "7"; "8"; "9";
   (if showCancel then "Cancel" else ""); "0"; "<"].

Inductive Emitted : Type :=
| Submit (pin : string)   (* onSubmit(newPin) *)
| Cancel.                 (* onCancel() *)

(** [handleKeyPress], called from the displayed render. *)
Definition handleKeyPress (num : string) (pin : string)
    : string * list Emitted :=
  if bool_decide (String.length pin < PIN_LENGTH) then
    let newPin := pin +:+ num in
    (newPin,
     if bool_decide (String.length newPin = PIN_LENGTH)
     then [Submit newPin] else [])
  else (pin, []).

(** [prevPin.slice(0, -1)] *)
Definition dropLast (s : string) : string :=
  String.substring 0 (String.length s - 1) s.

Definition handleDelete (pin : string) : string := dropLast pin.

(** The [onPress] of a key; the key with the empty label is disabled. *)
Definition press (onCancel : bool) (key : string) (pin : string)
    : string * list Emitted :=
  if bool_decide (key = "") then (pin, [])
  else if String.leb "0" key && String.leb key "9" then handleKeyPress key pin
  else if bool_decide (key = "<") then (handleDelete pin, [])
  else if bool_decide (key = "Cancel") && onCancel then (pin, [Cancel])
  else (pin, []).

(** A sequence of presses: the PIN held at the end and what was emitted. *)
Definition presses (onCancel : bool) (ks : list string) (pin : string)
    : string * list Emitted :=
  foldl (λ acc key, let '(p, out) := press onCancel key acc.1 in
                    (p, acc.2 ++ out)) (pin, []) ks.

End PinInput.

(** ** ForYouScreen: the list of videos *)

Module Backend.

(** An entry of the response as the filter reads it: a field that is absent
    or null is [None]. *)
Record Raw : Type := mkRaw {
  raw_id : option string;
  raw_url : option string;
  raw_thumbnailUrl : option string
}.

(** An entry kept in [backendVideos]. *)
Record Video : Type := mkVideo {
  id : string;
  url : string;
  thumbnailUrl : option string
}.

Definition videoData (v : Video) : VideoData.t :=
  VideoData.mk (id v) (url v).

(** [v && v.id && v.url], and the [map] that follows: an entry that passes
    is kept with [thumbnailUrl || null]. *)
Definition valid (entry : option Raw) : option Video :=
  match entry with
  | None => None
  | Some v =>
    if JS.truthy (raw_id v) && JS.truthy (raw_url v)
    then Some {| id := default "" (raw_id v); url := default "" (raw_url v);
                 thumbnailUrl := if JS.truthy (raw_thumbnailUrl v)
                                 then raw_thumbnailUrl v else None |}
    else None
  end.

Definition validVideos (entries : list (option Raw)) : list Video :=
  omap valid entries.

(** How the request ends. *)
Inductive Response : Type :=
| Aborted                               (* the 15 s timer aborts it *)
| Threw (message : string)              (* fetch, json() or the filter throws *)
| HttpError (status : nat)              (* !response.ok *)
| Body (entries : list (option Raw)).

Record Listing : Type := mkListing {
  videos : list Video;
  backendLoading : bool;
  backendError : option string
}.

(** [fetchVideos]; [online] is the reply of [checkNetworkStatus]. *)
Definition fetchVideos (online : bool) (resp : Response) (l : Listing)
    : Listing :=
  if negb online then
    {| videos := videos l; backendLoading := false;
       backendError := Some "No internet connection." |}
  else
    match resp with
    | Body entries =>
      {| videos := validVideos entries; backendLoading := false;
         backendError := None |}
    | Aborted =>
      {| videos := []; backendLoading := false;
         backendError := Some "Request timed out." |}
    | Threw m =>
      {| videos := []; backendLoading := false; backendError := Some m |}
    | HttpError status =>
      {| videos := []; backendLoading := false;
         backendError := Some ("HTTP Error: " +:+ pretty status) |}
    end.

End Backend.

(** The effect that computes [filteredVideos]. *)
Definition filteredVideos (isApprovedOnlyMode : bool)
    (selected : list string) (backend : list VideoData.t)
    : list VideoData.t :=
  if isApprovedOnlyMode
  then filter (λ v, JS.includes (VideoData.id v) selected = true) backend
  else backend.

(** What the render of [ForYouScreen] returns: a loading view while the
    settings or the videos load or a purchase is processed, the error of
    the backend, or the list, whose items carry the controls. *)
Inductive View : Type :=
| LoadingView (msg : string)
| ErrorView (msg : string)
| ListView.

Definition view (settings : Settings) (l : Backend.Listing) (r : ForYou)
    : View :=
  if isLoading settings || Backend.backendLoading l || isSimulatingPurchase r
  then LoadingView (if isSimulatingPurchase r then "Processing Payment..."
                    else if isLoading settings then "Settings..."
                    else "Videos...")
  else if JS.truthy (Backend.backendError l)
  then ErrorView (default "" (Backend.backendError l))
  else ListView.

(** ** ForYouScreen: the purchase *)

Definition setHasSimulatedPremium (b : bool) (s : ForYou) : ForYou :=
  {| hasSimulatedPremium := b;
     isSimulatingPurchase := isSimulatingPurchase s;
     currentlyPlaying := currentlyPlaying s;
     videoToPlayIntent := videoToPlayIntent s;
     backendVideos := backendVideos s;
     videoErrors := videoErrors s;
     retryAttempts := retryAttempts s;
     videoRefs := videoRefs s;
     videoStatusCache := videoStatusCache s |}.

Definition setIsSimulatingPurchase (b : bool) (s : ForYou) : ForYou :=
  {| hasSimulatedPremium := hasSimulatedPremium s;
     isSimulatingPurchase := b;
     currentlyPlaying := currentlyPlaying s;
     videoToPlayIntent := videoToPlayIntent s;
     backendVideos := backendVideos s;
     videoErrors := videoErrors s;
     retryAttempts := retryAttempts s;
     videoRefs := videoRefs s;
     videoStatusCache := videoStatusCache s |}.

(** [hay.includes(needle)] on strings. *)
Fixpoint string_includes (needle hay : string) : bool :=
  String.prefix needle hay
  || match hay with
     | EmptyString => false
     | String _ rest => string_includes needle rest
     end.

Module Stripe.

(** How the confirmation request to the backend ends. *)
Inductive Confirm : Type := Confirmed | NotConfirmed | ConfirmThrew.

(** How far a purchase gets. *)
Inductive Run : Type :=
| Offline
| NoUser
| CreateThrew (message : string)
| CreateRefused (error : option string) (status : nat)
| InitFailed (message : string)
| SheetFailed (code message : string)
| Paid (c : Confirm).

Inductive Shown : Type :=
| NoConnection                      (* Alert 'Error' *)
| PaymentFailed (message : string)  (* Alert 'Payment Failed' *)
| PaymentError (message : string)   (* Alert 'Payment Error' *)
| PremiumUnlocked.                  (* Alert 'Premium Unlocked!', 'Great!' *)

(** The message of the error thrown inside [try], if one is. *)
Definition thrown (run : Run) : option string :=
  match run with
  | NoUser => Some "User not authenticated. Please log in first."
  | CreateThrew m => Some m
  | CreateRefused error status =>
      Some (if JS.truthy error then default "" error
            else "HTTP Error: " +:+ pretty status)
  | InitFailed m => Some m
  | _ => None
  end.

(** The message the [catch] block shows for an error. *)
Definition errorMessage (message : string) : string :=
  if string_includes "User not authenticated" message
  then "Please log in to make a purchase."
  else if string_includes "network" message || string_includes "fetch" message
  then "Network error. Please check your connection and try again."
  else if string_includes "email" message
  then "Please ensure your account has a valid email address."
  else if JS.truthy (Some message) then message
  else "Something went wrong. Please try again.".

Definition handleStripePayment (run : Run) (s : ForYou)
    : ForYou * option Shown :=
  match run with
  | Offline => (s, Some NoConnection)
  | SheetFailed code m =>
      (setIsSimulatingPurchase false (setIsSimulatingPurchase true s),
       if bool_decide (code = "Canceled") then None else Some (PaymentFailed m))
  | Paid _ =>
      (setIsSimulatingPurchase false
         (setHasSimulatedPremium true (setIsSimulatingPurchase true s)),
       Some PremiumUnlocked)
  | _ =>
      (setIsSimulatingPurchase false (setIsSimulatingPurchase true s),
       Some (PaymentError (errorMessage (default "" (thrown run)))))
  end.

End Stripe.

Section Purchase.

Variable JSON_stringify : list string → string.

(** The 'Unlock Premium' button of the upgrade alert that the render
    ([r], [rs]) raised for [videoId]: the purchase, and, after the alert of
    a successful purchase is dismissed, the toggle that was refused. *)
Definition unlockPremium (run : Stripe.Run) (rs : Settings)
    (videoId : string) (ok : bool) (s : ForYou)
    (w : Settings * AsyncStorage.t)
    : ForYou * option Stripe.Shown * (Settings * AsyncStorage.t) :=
  let '(s', shown) := Stripe.handleStripePayment run s in
  match shown with
  | Some Stripe.PremiumUnlocked =>
      (s', shown,
       (toggleVideoSelectionInContext JSON_stringify rs videoId ok w).2)
  | _ => (s', shown, w)
  end.

End Purchase.

(** The item an event is about. *)
Definition eventId (w : World) (e : Event) : option string :=
  match e with
  | PressPlay v _ _ | PressRetry v | PressSelect v _
  | PlaybackStatusUpdate v _ | PlayerError v _ => Some v
  | LoadSettles n _ | LoadTimesOut n => a_videoId <$> attempts w !! n
  end.

(** ** More example inputs *)

Module MoreExamples.

(** The settings after a launch on an empty store. *)
Definition fresh : Settings * AsyncStorage.t := (Examples.loaded, ∅).

(** The settings that hold the PIN 1234. *)
Definition withPin : Settings :=
  setIsPinSet true (setPin (Some "1234") Examples.loaded).

(** A session with a failed save and a failed toggle of the selection. *)
Definition mixed : list SessionOp :=
  [SavePin "1234" true; ToggleRestricted true; SavePin "99" false;
   ToggleSelection "a" false; ToggleRestricted true].

Definition setup : PinSetup.State :=
  PinSetup.mk "1234" "1234" false false "" "".

(** Item a after two failures, its error shown. *)
Definition failedTwice : World :=
  {| screen := setRetryAttempts (λ _, {["a" := JS.Num 2]})
                 (setVideoErrors (λ _, {["a" := {| message := "boom" |}]})
                    Examples.idle);
     context := (Examples.loaded, ∅);
     attempts := [] |}.

Definition fiveSelected : World :=
  {| screen := Examples.idle; context := (Examples.five, ∅); attempts := [] |}.


(** The screen with a play intent for an item that is not in the list. *)
Definition wantsMissing : ForYou :=
  setVideoToPlayIntent (Some "c") Examples.idle.

(** A response body: a valid entry, a null entry, an entry without url and
    one with an empty id. *)
Definition body : list (option Backend.Raw) :=
  [Some (Backend.mkRaw (Some "a") (Some "https://cdn.example/a.mp4") None);
   None;
   Some (Backend.mkRaw (Some "b") None None);
   Some (Backend.mkRaw (Some "") (Some "https://cdn.example/c.mp4") None)].

Definition fetched : ForYou :=
  {| hasSimulatedPremium := false;
     isSimulatingPurchase := false;
     currentlyPlaying := None;
     videoToPlayIntent := None;
     backendVideos := Backend.videoData <$> Backend.validVideos body;
     videoErrors := ∅;
     retryAttempts := ∅;
     videoRefs := {["a" := true]};
     videoStatusCache := ∅ |}.

(** The world in which the load of item a is pending. *)
Definition loadingA : World :=
  {| screen := Examples.pendingA;
     context := (Examples.loaded, ∅);
     attempts := [startedRun "a"
                    (setVideoToPlayIntent (Some "a") Examples.idle)] |}.

End MoreExamples.

(** * Properties of the settings store *)

Example PlainJSON_roundtrip :
  PlainJSON.parse (PlainJSON.stringify ["v1"; "v2"])
  = Some (JSON.ofStrings ["v1"; "v2"])
  ∧ PlainJSON.parse (PlainJSON.stringify []) = Some (JSON.ofStrings [])
  ∧ PlainJSON.parse "null" = Some JSON.Null
  ∧ PlainJSON.parse "not json" = None.
Proof. vm_compute. done. Qed.

Lemma NoDup_newSelectedVideos videoId l :
  NoDup l → NoDup (newSelectedVideos l videoId).
Proof.
  intros Hl. unfold newSelectedVideos, JS.includes, JS.without.
  case_bool_decide as Hin.
  - by apply NoDup_filter.
  - apply NoDup_app. split_and!; [done | | apply NoDup_singleton].
    intros x Hx ->%list_elem_of_singleton. done.
Qed.

Lemma elem_of_newSelectedVideos videoId x l :
  x ∈ newSelectedVideos l videoId ↔
  xorb (bool_decide (x ∈ l)) (bool_decide (videoId = x)) = true.
Proof.
  unfold newSelectedVideos, JS.includes, JS.without.
  destruct (decide (videoId = x)) as [->|Hne].
  - rewrite (bool_decide_eq_true_2 (x = x)) by done.
    case_bool_decide as Hin; simpl.
    + rewrite list_elem_of_filter. intuition congruence.
    + rewrite elem_of_app, list_elem_of_singleton. intuition congruence.
  - rewrite (bool_decide_eq_false_2 (videoId = x)) by done.
    rewrite xorb_false_r, bool_decide_eq_true.
    case_bool_decide as Hin.
    + rewrite list_elem_of_filter. intuition congruence.
    + rewrite elem_of_app, list_elem_of_singleton. intuition congruence.
Qed.

Lemma toggleCalls_cons v ok calls :
  toggleCalls ((v, ok) :: calls) = ToggleSelection v ok :: toggleCalls calls.
Proof. reflexivity. Qed.

Lemma toggleCalls_take n calls :
  take n (toggleCalls calls) = toggleCalls (take n calls).
Proof. unfold toggleCalls. by rewrite fmap_take. Qed.

Lemma timesToggled_cons videoId v ok ops :
  timesToggled videoId (ToggleSelection v ok :: ops)
  = (if bool_decide (v = videoId) then 1 else 0) + timesToggled videoId ops.
Proof.
  unfold timesToggled. simpl. by case_bool_decide.
Qed.

Lemma verifyPin_true {V : Type} (r : SettingsOf V) x :
  verifyPin r x = true ↔ pin r = Some x.
Proof. unfold verifyPin. rewrite bool_decide_eq_true. split; congruence. Qed.

Section SettingsFacts.

Variable JSON_stringify : list string → string.

Local Abbreviation toggle := (toggleVideoSelectionInContext JSON_stringify).
Local Abbreviation session := (runSession JSON_stringify).

Lemma toggle_state r videoId ok w :
  (toggle r videoId ok w).2.1
  = setSelectedVideos (newSelectedVideos (selectedVideos r) videoId) w.1.
Proof.
  unfold toggleVideoSelectionInContext, AsyncStorage.setItem.
  destruct ok; reflexivity.
Qed.

Lemma session_cons op ops w :
  session (op :: ops) w = session ops (sessionStep JSON_stringify w op).
Proof. reflexivity. Qed.

Lemma sessionStep_toggle w v ok :
  selectedVideos (sessionStep JSON_stringify w (ToggleSelection v ok)).1
  = newSelectedVideos (selectedVideos w.1) v.
Proof.
  unfold sessionStep. by rewrite toggle_state.
Qed.

Lemma toggleCalls_NoDup calls w :
  NoDup (selectedVideos w.1) →
  NoDup (selectedVideos (session (toggleCalls calls) w).1).
Proof.
  revert w. induction calls as [|[v ok] calls IH]; intros w Hw; [done|].
  rewrite toggleCalls_cons, session_cons. apply IH.
  rewrite sessionStep_toggle. by apply NoDup_newSelectedVideos.
Qed.

Lemma toggleCalls_parity calls w videoId :
  videoId ∈ selectedVideos (session (toggleCalls calls) w).1 ↔
  xorb (bool_decide (videoId ∈ selectedVideos w.1))
       (Nat.odd (timesToggled videoId (toggleCalls calls))) = true.
Proof.
  revert w. induction calls as [|[v ok] calls IH]; intros w.
  - unfold timesToggled. simpl. rewrite xorb_false_r.
    by rewrite bool_decide_eq_true.
  - rewrite toggleCalls_cons, session_cons, IH, sessionStep_toggle.
    rewrite timesToggled_cons.
    pose proof (elem_of_newSelectedVideos v videoId (selectedVideos w.1)) as Ht.
    assert (bool_decide (videoId ∈ newSelectedVideos (selectedVideos w.1) v)
            = xorb (bool_decide (videoId ∈ selectedVideos w.1))
                   (bool_decide (v = videoId))) as ->.
    { destruct (xorb _ _) eqn:E.
      - apply bool_decide_eq_true. by apply Ht.
      - apply bool_decide_eq_false. intros Hin%Ht. congruence. }
    destruct (bool_decide (v = videoId)).
    + rewrite Nat.add_1_l, Nat.odd_succ, <- Nat.negb_odd.
      by destruct (bool_decide _), (Nat.odd _).
    + simpl. by rewrite xorb_false_r.
Qed.

Lemma pin_session ops w :
  pin (session ops w).1 = lastPinSet ops (pin w.1).
Proof.
  revert w. induction ops as [|op ops IH]; intros w; [done|].
  rewrite session_cons, IH. unfold lastPinSet at 2. simpl. f_equal.
  destruct op as [newPin ok|v ok|ok|ok]; simpl.
  - by destruct ok.
  - by rewrite toggle_state.
  - unfold toggleRestrictedMode, AsyncStorage.setItem. by destruct ok.
  - by destruct ok.
Qed.

Lemma isPinSet_session ops w :
  isPinSet (session ops w).1 = savedSinceClear ops (isPinSet w.1).
Proof.
  revert w. induction ops as [|op ops IH]; intros w; [done|].
  rewrite session_cons, IH. unfold savedSinceClear at 2. simpl. f_equal.
  destruct op as [newPin ok|v ok|ok|ok]; simpl.
  - by destruct ok.
  - by rewrite toggle_state.
  - unfold toggleRestrictedMode, AsyncStorage.setItem. by destruct ok.
  - by destruct ok.
Qed.

End SettingsFacts.

Section SettingsClaims.

Variable JSON_parse : string → option JSON.value.
Variable JSON_stringify : list string → string.

Local Abbreviation toggle := (toggleVideoSelectionInContext JSON_stringify).
Local Abbreviation session := (runSession JSON_stringify).

(** C4, as amended: over every sequence of toggle calls that starts from a
    selection without duplicates, an id is in the final selection iff its
    initial membership and the parity of the number of its toggles differ
    (so, for an id that was not selected at the start: iff it was toggled
    an odd number of times), and the selection has no duplicates after any
    prefix of the sequence.  Whether the writes succeed plays no part. *)
Theorem toggle_sequence_parity (calls : list (string * bool))
    (w : Settings * AsyncStorage.t) (videoId : string) :
  NoDup (selectedVideos w.1) →
  (videoId ∈ selectedVideos (session (toggleCalls calls) w).1 ↔
     xorb (bool_decide (videoId ∈ selectedVideos w.1))
          (Nat.odd (timesToggled videoId (toggleCalls calls))) = true)
  ∧ (videoId ∉ selectedVideos w.1 →
     (videoId ∈ selectedVideos (session (toggleCalls calls) w).1 ↔
        Nat.odd (timesToggled videoId (toggleCalls calls)) = true))
  ∧ (∀ n, NoDup (selectedVideos (session (take n (toggleCalls calls)) w).1)).
Proof.
  intros Hw. split_and!.
  - apply toggleCalls_parity.
  - intros Hnot. rewrite toggleCalls_parity.
    rewrite (bool_decide_eq_false_2 _ Hnot). by simpl.
  - intros n. rewrite toggleCalls_take. by apply toggleCalls_NoDup.
Qed.

(** C5: [verifyPin] compares the candidate with the PIN held in memory and
    nothing else: it answers true iff that PIN is the candidate, answers
    false for every candidate (the empty string too) when no PIN is held,
    and after any operations of a session the PIN held is the one of the
    last [savePin] that succeeded since the last successful clear.  It takes
    no storage and returns a boolean on every input. *)
Theorem verifyPin_spec :
  (∀ (r : Settings) x, verifyPin r x = true ↔ pin r = Some x)
  ∧ (∀ (r : Settings) x, verifyPin (setPin None r) x = false)
  ∧ (∀ x, verifyPin initialSettings x = false)
  ∧ (∀ ops w x,
       verifyPin (session ops w).1 x = true ↔ lastPinSet ops (pin w.1) = Some x).
Proof.
  split_and!.
  - apply verifyPin_true.
  - intros r x. reflexivity.
  - intros x. reflexivity.
  - intros ops w x. by rewrite verifyPin_true, pin_session.
Qed.

(** C6, as amended: when the write fails, [savePin] returns false and
    leaves state and storage as they were; [toggleVideoSelectionInContext]
    and [toggleRestrictedMode] reject, leave the storage as it was, and
    have by then installed the new value in memory. *)
Theorem write_failure_effects (w : Settings * AsyncStorage.t)
    (newPin videoId : string) :
  savePin newPin false w = (false, w)
  ∧ toggle w.1 videoId false w
    = (JS.Rejected,
       (setSelectedVideos (newSelectedVideos (selectedVideos w.1) videoId) w.1,
        w.2))
  ∧ toggleRestrictedMode w.1 false w
    = (JS.Rejected, (setRestrictedMode (negb (restrictedMode w.1)) w.1, w.2)).
Proof. by destruct w. Qed.

(** The fields of the state [load] yields, by what the reads give. *)
Lemma load_fields io db :
  isLoading (load JSON_parse io db) = false
  ∧ pin (load JSON_parse io db)
    = (if readPin io && JS.truthy (db !! "parentPin")
       then db !! "parentPin" else None)
  ∧ isPinSet (load JSON_parse io db)
    = readPin io && JS.truthy (db !! "parentPin")
  ∧ restrictedMode (load JSON_parse io db)
    = readPin io && readMode io
      && bool_decide (db !! "restrictedMode" = Some "true")
  ∧ selectedVideos (load JSON_parse io db)
    = (if readPin io && readMode io && readVideos io
       then match db !! "selectedVideos" with
            | Some text => if bool_decide (text = "") then JSON.Array []
                           else default (JSON.Array []) (JSON_parse text)
            | None => JSON.Array []
            end
       else JSON.Array []).
Proof.
  destruct io as [[] [] []]; unfold load, loadSettings, loadSettings_try,
    AsyncStorage.getItem; simpl;
    destruct (db !! "parentPin") as [p|]; simpl;
    try (destruct (bool_decide (p = "")); simpl);
    try done;
    destruct (db !! "selectedVideos") as [v|]; simpl;
    try (destruct (bool_decide (v = "")); simpl);
    try done;
    by destruct (JSON_parse v).
Qed.

(** C8, as amended: [load] is total.  On a fresh store it yields no PIN,
    restricted mode off and the empty selection.  In general the PIN and
    the mode take their stored value when the reads up to them resolve and
    the entry is present (a non-empty PIN, the text true), and their default
    otherwise; the selection keeps its default when a read rejects, when the
    entry is absent or empty, and when [JSON.parse] throws on it; and a
    stored text that parses is installed as the value it denotes, whatever
    that value is.  The loading flag is always cleared. *)
Theorem load_fails_open :
  load JSON_parse readsOk ∅
  = raw {| isLoading := false; isPinSet := false; pin := None;
           restrictedMode := false; selectedVideos := [] |}
  ∧ ∀ io db,
      isLoading (load JSON_parse io db) = false
      ∧ pin (load JSON_parse io db)
        = (if readPin io && JS.truthy (db !! "parentPin")
           then db !! "parentPin" else None)
      ∧ isPinSet (load JSON_parse io db)
        = readPin io && JS.truthy (db !! "parentPin")
      ∧ restrictedMode (load JSON_parse io db)
        = readPin io && readMode io
          && bool_decide (db !! "restrictedMode" = Some "true")
      ∧ selectedVideos (load JSON_parse io db)
        = (if readPin io && readMode io && readVideos io
           then match db !! "selectedVideos" with
                | Some text =>
                  if bool_decide (text = "") then JSON.Array []
                  else match JSON_parse text with
                       | Some v => v
                       | None => JSON.Array []
                       end
                | None => JSON.Array []
                end
           else JSON.Array []).
Proof. split; [reflexivity | apply load_fields]. Qed.

(** C9, as amended: within a session [isPinSet] is true iff it was true
    when the session's operations started or a [savePin] has succeeded
    since, with no successful [clearSettings] after; a successful [savePin]
    makes it true, a successful [clearSettings] makes it false, and failed
    calls and the toggles leave it alone.  [load] makes it true exactly
    when the read resolves with a non-empty stored PIN. *)
Theorem isPinSet_spec :
  (∀ ops w, isPinSet (session ops w).1 = savedSinceClear ops (isPinSet w.1))
  ∧ (∀ io db,
       isPinSet (load JSON_parse io db)
       = readPin io && JS.truthy (db !! "parentPin")).
Proof.
  split; [apply isPinSet_session|].
  intros io db. apply load_fields.
Qed.

(** C10: a [savePin] of the empty string that succeeds sets [isPinSet] and
    makes [verifyPin] accept the empty string for the rest of the session;
    a [load] from the storage it wrote finds the stored PIN falsy, so it
    yields no PIN, [isPinSet] false, and [verifyPin] rejects the empty
    string. *)
Theorem empty_pin_lost_on_reload (w : Settings * AsyncStorage.t) :
  (savePin "" true w).1 = true
  ∧ isPinSet (savePin "" true w).2.1 = true
  ∧ verifyPin (savePin "" true w).2.1 "" = true
  ∧ ∀ io,
      isPinSet (load JSON_parse io (savePin "" true w).2.2) = false
      ∧ pin (load JSON_parse io (savePin "" true w).2.2) = None
      ∧ verifyPin (load JSON_parse io (savePin "" true w).2.2) "" = false.
Proof.
  split_and!; [reflexivity..|].
  intros io. set (db := (savePin "" true w).2.2).
  assert (db !! "parentPin" = Some "") as Hdb by apply lookup_insert_eq.
  destruct (load_fields io db) as (_ & Hpin & Hset & _).
  rewrite Hdb in Hpin, Hset.
  change (JS.truthy (Some "")) with false in Hpin, Hset.
  rewrite andb_false_r in Hpin, Hset.
  split_and!; [done..|].
  unfold verifyPin. by rewrite Hpin.
Qed.

End SettingsClaims.

(** * Properties of the playback controller *)

Lemma handleVideoError_videoErrors r videoId m s :
  videoErrors (handleVideoError r videoId m s)
  = <[videoId := recorded m]> (videoErrors s).
Proof.
  unfold handleVideoError.
  by destruct (bool_decide (currentlyPlaying r = Some videoId)),
       (bool_decide (videoToPlayIntent r = Some videoId)).
Qed.

Lemma handleVideoError_retryAttempts r videoId m s :
  retryAttempts (handleVideoError r videoId m s)
  = <[videoId := JS.plus1 (JS.orZero (retryAttempts s) videoId)]>
      (retryAttempts s).
Proof.
  unfold handleVideoError.
  by destruct (bool_decide (currentlyPlaying r = Some videoId)),
       (bool_decide (videoToPlayIntent r = Some videoId)).
Qed.

Lemma handleVideoError_currentlyPlaying r videoId m s :
  currentlyPlaying (handleVideoError r videoId m s)
  = if bool_decide (currentlyPlaying r = Some videoId)
    then None else currentlyPlaying s.
Proof.
  unfold handleVideoError.
  by destruct (bool_decide (currentlyPlaying r = Some videoId)),
       (bool_decide (videoToPlayIntent r = Some videoId)).
Qed.

Lemma handleVideoError_videoToPlayIntent r videoId m s :
  videoToPlayIntent (handleVideoError r videoId m s)
  = if bool_decide (videoToPlayIntent r = Some videoId)
    then None else videoToPlayIntent s.
Proof.
  unfold handleVideoError.
  by destruct (bool_decide (currentlyPlaying r = Some videoId)),
       (bool_decide (videoToPlayIntent r = Some videoId)).
Qed.

#[local] Arguments handleVideoError : simpl never.

(** Called with a render that agrees with the live state on the current
    item, [handleVideoError] keeps the invariant: it clears
    [currentlyPlaying] when that is the item it marks. *)
Lemma handleVideoError_same_render r videoId m s :
  currentlyPlaying r = currentlyPlaying s →
  errored_not_playing s →
  errored_not_playing (handleVideoError r videoId m s).
Proof.
  intros Hr Hs other. rewrite handleVideoError_currentlyPlaying,
    handleVideoError_videoErrors.
  case_bool_decide as Hcur; [done|].
  intros Hother. rewrite lookup_insert_ne by congruence. by apply Hs.
Qed.

Lemma retryVideo_invariant videoId s :
  errored_not_playing s → errored_not_playing (retryVideo videoId s).
Proof.
  intros Hs other Hother. cbn in *.
  destruct (decide (videoId = other)) as [->|Hne].
  - apply lookup_delete_eq.
  - rewrite lookup_delete_ne by done. by apply Hs.
Qed.

(** The ways [handleVideoPlayback] can end. *)
Lemma handleVideoPlayback_cases r videoId online p s :
  (∃ m s0, (s0 = s ∨ ∃ st, s0 = cacheStatus videoId (Some st) s)
           ∧ handleVideoPlayback r videoId online p s
             = handleVideoError r videoId m s0)
  ∨ (∃ st, handleVideoPlayback r videoId online p s
           = cacheStatus videoId (Some st) s)
  ∨ handleVideoPlayback r videoId online p s
    = setVideoToPlayIntent (Some videoId) s.
Proof.
  unfold handleVideoPlayback.
  destruct online; cbn [negb]; [|left; eauto].
  destruct (bool_decide (currentlyPlaying r = Some videoId)
            && videoRef s videoId); [|by right; right].
  assert (∀ st,
    (∃ m s0, (s0 = s ∨ ∃ st', s0 = cacheStatus videoId (Some st') s)
       ∧ (if isLoaded st then
            match playOrPause p with
            | Engine.Ok _ => cacheStatus videoId (Some st) s
            | Engine.Throws m =>
                handleVideoError r videoId m (cacheStatus videoId (Some st) s)
            end
          else setVideoToPlayIntent (Some videoId) s)
         = handleVideoError r videoId m s0)
    ∨ (∃ st', (if isLoaded st then
                 match playOrPause p with
                 | Engine.Ok _ => cacheStatus videoId (Some st) s
                 | Engine.Throws m =>
                     handleVideoError r videoId m
                       (cacheStatus videoId (Some st) s)
                 end
               else setVideoToPlayIntent (Some videoId) s)
              = cacheStatus videoId (Some st') s)
    ∨ (if isLoaded st then
         match playOrPause p with
         | Engine.Ok _ => cacheStatus videoId (Some st) s
         | Engine.Throws m =>
             handleVideoError r videoId m (cacheStatus videoId (Some st) s)
         end
       else setVideoToPlayIntent (Some videoId) s)
      = setVideoToPlayIntent (Some videoId) s) as Htoggle.
  { intros st. destruct (isLoaded st); [|by right; right].
    destruct (playOrPause p) as [[]|m]; [right; left; eauto|].
    left. exists m, (cacheStatus videoId (Some st) s). eauto. }
  destruct (JS.get (videoStatusCache s) videoId) as [[st|]| |];
    [apply Htoggle | | by right; right |].
  all: destruct (getStatusAsync p) as [st|m]; [apply Htoggle|left; eauto].
Qed.

Lemma cacheStatus_invariant videoId v s :
  errored_not_playing s → errored_not_playing (cacheStatus videoId v s).
Proof. done. Qed.

Lemma handleVideoPlayback_invariant videoId online p s :
  errored_not_playing s →
  errored_not_playing (handleVideoPlayback s videoId online p s).
Proof.
  intros Hs.
  destruct (handleVideoPlayback_cases s videoId online p s)
    as [(m & s0 & Hs0 & ->)|[[st ->]| ->]]; [|done..].
  destruct Hs0 as [->|[st ->]]; by apply handleVideoError_same_render.
Qed.

Lemma onPlaybackStatusUpdate_invariant videoId status s :
  errored_not_playing s →
  errored_not_playing (onPlaybackStatusUpdate s videoId status s).
Proof.
  intros Hs. unfold onPlaybackStatusUpdate.
  destruct (bool_decide (Some videoId = currentlyPlaying s) && isLoaded status);
    [|done].
  destruct (error status) as [e|]; [by apply handleVideoError_same_render|].
  by destruct (didJustFinish status).
Qed.

Lemma performPlayback_begin_invariant s :
  errored_not_playing s →
  errored_not_playing (performPlayback_begin s s).1.
Proof.
  intros Hs. unfold performPlayback_begin.
  destruct (negb (JS.truthy (videoToPlayIntent s))); [done|].
  destruct (videoToPlayIntent s) as [videoId|]; [|done].
  set (s1 := setVideoErrors (λ prev, delete videoId prev) s).
  assert (errored_not_playing s1) as Hs1.
  { intros other Hother. cbn in *.
    destruct (decide (videoId = other)) as [->|Hne];
      [apply lookup_delete_eq|].
    rewrite lookup_delete_ne by done. by apply Hs. }
  destruct (negb (videoRef s videoId));
    [by apply (handleVideoError_same_render s)|].
  destruct (negb (JS.truthy _));
    [by apply (handleVideoError_same_render s)|].
  intros other [= <-]. apply lookup_delete_eq.
Qed.

Lemma performPlayback_settle_videoErrors a o s :
  videoErrors (performPlayback_settle a o s)
  = match settleFails o with
    | Some m => <[a_videoId a := recorded m]> (videoErrors s)
    | None => videoErrors s
    end.
Proof.
  unfold performPlayback_settle, settleFails.
  destruct o as [m|[[] [] ? ?] [[]|m]]; cbn;
    rewrite ?handleVideoError_videoErrors; reflexivity.
Qed.

Lemma performPlayback_settle_retryAttempts a o s :
  retryAttempts (performPlayback_settle a o s)
  = match settleFails o with
    | Some m =>
        <[a_videoId a := JS.plus1 (JS.orZero (retryAttempts s) (a_videoId a))]>
          (retryAttempts s)
    | None => retryAttempts s
    end.
Proof.
  unfold performPlayback_settle, settleFails.
  destruct o as [m|[[] [] ? ?] [[]|m]]; cbn;
    rewrite ?handleVideoError_retryAttempts; reflexivity.
Qed.

Lemma performPlayback_settle_currentlyPlaying a o s :
  currentlyPlaying (performPlayback_settle a o s)
  = match settleFails o with
    | Some m => if bool_decide (currentlyPlaying (a_render a) = Some (a_videoId a))
                then None else currentlyPlaying s
    | None => currentlyPlaying s
    end.
Proof.
  unfold performPlayback_settle, settleFails.
  destruct o as [m|[[] [] ? ?] [[]|m]]; cbn;
    rewrite ?handleVideoError_currentlyPlaying; reflexivity.
Qed.

(** A run of [performPlayback] started on a render whose current item is
    another one (or none) and ended by a failure: the error is recorded and
    the item stays the current one. *)
Lemma performPlayback_failure_stale r s a m :
  performPlayback_begin r r = (s, Some a) →
  currentlyPlaying r ≠ Some (a_videoId a) →
  currentlyPlaying (performPlayback_settle a (LoadThrew m) s)
    = Some (a_videoId a)
  ∧ videoErrors (performPlayback_settle a (LoadThrew m) s) !! a_videoId a
    = Some (recorded m).
Proof.
  unfold performPlayback_begin.
  destruct (negb (JS.truthy (videoToPlayIntent r))); [done|].
  destruct (videoToPlayIntent r) as [videoId|]; [|done].
  destruct (negb (videoRef r videoId)); [done|].
  destruct (negb (JS.truthy _)); [done|].
  intros [= <- <-] Hcur. cbn in Hcur.
  rewrite performPlayback_settle_currentlyPlaying,
    performPlayback_settle_videoErrors. cbn.
  rewrite (bool_decide_eq_false_2 _ Hcur). by rewrite lookup_insert_eq.
Qed.

Lemma performPlayback_settle_videoToPlayIntent a o s :
  videoToPlayIntent (performPlayback_settle a o s) = None.
Proof. reflexivity. Qed.

Lemma has_own {A : Type} (o : gmap string A) key :
  is_Some (o !! key) → JS.has o key = true.
Proof. intros [a Ha]. unfold JS.has, JS.get. by rewrite Ha. Qed.

Lemma has_false {A : Type} (o : gmap string A) key :
  JS.has o key = false ↔ o !! key = None ∧ JS.inherited key = false.
Proof.
  unfold JS.has, JS.get.
  destruct (o !! key), (JS.inherited key);
    (split; [intros Hhas|intros [Hown Hkey]]); done.
Qed.

Lemma orZero_own o key c : o !! key = Some c → JS.orZero o key = c.
Proof. intros Hc. unfold JS.orZero, JS.get. by rewrite Hc. Qed.




Lemma renderVideoItem_playButton r selected videoId :
  playButton (renderVideoItem r selected videoId) = true ↔
  currentlyPlaying r ≠ Some videoId
  ∧ videoErrors r !! videoId = None ∧ JS.inherited videoId = false.
Proof.
  unfold renderVideoItem. cbn -[JS.has]. rewrite <- has_false.
  destruct (JS.has (videoErrors r) videoId); cbn.
  - rewrite andb_false_r. split; [done|by intros [_ ?]].
  - rewrite !andb_true_r, negb_true_iff, bool_decide_eq_false.
    split; [done|by intros [? _]].
Qed.

Section PlaybackClaims.

Variable JSON_stringify : list string → string.

Local Abbreviation requestSelection :=
  (handleToggleVideoSelection JSON_stringify).

(** Every event handled on the displayed render keeps the invariant, and
    so does the start of a run of [performPlayback]; only the end of a run
    ([LoadSettles], [LoadTimesOut]), which acts through an older render,
    can break it. *)
Lemma displayed_render_keeps_invariant (w : World) (e : Event) :
  (∀ n o, e ≠ LoadSettles n o) → (∀ n, e ≠ LoadTimesOut n) →
  errored_not_playing (screen w) →
  errored_not_playing (screen (step JSON_stringify w e)).
Proof.
  intros Hsettle Htimeout Hw.
  assert (errored_not_playing (screen (handle JSON_stringify w e))) as Hh.
  { destruct e as [v online p|v|v ok|n o|n|v status|v m];
      unfold handle; cbv zeta.
    - destruct (playButton _ || pauseButton _); [|done].
      by apply handleVideoPlayback_invariant.
    - destruct (retryButton _); [|done]. by apply retryVideo_invariant.
    - done.
    - by destruct (Hsettle n o).
    - by destruct (Htimeout n).
    - by apply onPlaybackStatusUpdate_invariant.
    - by apply handleVideoError_same_render. }
  unfold step, useEffect_playback.
  destruct (bool_decide _); [done|].
  pose proof (performPlayback_begin_invariant _ Hh) as Hb.
  by destruct (performPlayback_begin _ _).
Qed.



(** While a purchase is processed the render returns the loading view: no
    item, and with it no select control, is on the screen. *)
Lemma view_during_purchase settings l r :
  isSimulatingPurchase r = true →
  view settings l r = LoadingView "Processing Payment...".
Proof.
  intros Hpurchase. unfold view. rewrite Hpurchase.
  by rewrite !orb_true_r.
Qed.


(** C3, as amended: a run of [performPlayback] that a newer play request
    has overtaken is not cancelled.  When its timer fires or its load fails
    it records an error for its own id and counts a retry; when it ends it
    clears the play intent.  It never touches the error entry or the retry
    count of another id, and it never makes an item the currently playing
    one: whatever item is current after it was current before.  A run that
    ends without failure records nothing and leaves the current item. *)
Theorem superseded_attempt_effects (a : Attempt) (o : LoadOutcome)
    (s : ForYou) (other : string) :
  other ≠ a_videoId a →
  (videoErrors (performPlayback_timeout a s) !! a_videoId a
     = Some {| message := "Video loading timed out." |}
   ∧ retryAttempts (performPlayback_timeout a s) !! a_videoId a
     = Some (JS.plus1 (JS.orZero (retryAttempts s) (a_videoId a))))
  ∧ (∀ m, settleFails o = Some m →
       videoErrors (performPlayback_settle a o s) !! a_videoId a
         = Some (recorded m)
       ∧ retryAttempts (performPlayback_settle a o s) !! a_videoId a
         = Some (JS.plus1 (JS.orZero (retryAttempts s) (a_videoId a))))
  ∧ (settleFails o = None →
       videoErrors (performPlayback_settle a o s) = videoErrors s
       ∧ retryAttempts (performPlayback_settle a o s) = retryAttempts s
       ∧ currentlyPlaying (performPlayback_settle a o s) = currentlyPlaying s)
  ∧ (videoErrors (performPlayback_timeout a s) !! other = videoErrors s !! other
     ∧ retryAttempts (performPlayback_timeout a s) !! other
       = retryAttempts s !! other
     ∧ videoErrors (performPlayback_settle a o s) !! other
       = videoErrors s !! other
     ∧ retryAttempts (performPlayback_settle a o s) !! other
       = retryAttempts s !! other)
  ∧ (∀ x, currentlyPlaying (performPlayback_timeout a s) = Some x →
          currentlyPlaying s = Some x)
  ∧ (∀ x, currentlyPlaying (performPlayback_settle a o s) = Some x →
          currentlyPlaying s = Some x)
  ∧ videoToPlayIntent (performPlayback_settle a o s) = None
  ∧ videoToPlayIntent (performPlayback_timeout a s)
    = (if bool_decide (videoToPlayIntent (a_render a) = Some (a_videoId a))
       then None else videoToPlayIntent s).
Proof.
  intros Hother. unfold performPlayback_timeout.
  rewrite !handleVideoError_videoErrors, !handleVideoError_retryAttempts,
    handleVideoError_currentlyPlaying, handleVideoError_videoToPlayIntent,
    performPlayback_settle_videoErrors,
    performPlayback_settle_retryAttempts,
    performPlayback_settle_currentlyPlaying.
  split_and!.
  - by rewrite lookup_insert_eq.
  - by rewrite lookup_insert_eq.
  - intros m ->. by rewrite !lookup_insert_eq.
  - by intros ->.
  - by rewrite lookup_insert_ne.
  - by rewrite lookup_insert_ne.
  - destruct (settleFails o); [by rewrite lookup_insert_ne | done].
  - destruct (settleFails o); [by rewrite lookup_insert_ne | done].
  - intros x. by case_bool_decide.
  - intros x. destruct (settleFails o); [by case_bool_decide|done].
  - reflexivity.
  - reflexivity.
Qed.

End PlaybackClaims.

(** * The claims at concrete inputs *)


(** C3, counterexample: play is requested for ["b"], then for ["a"] while
    the load of ["b"] is unresolved, then the timer of the run for ["b"]
    fires: an error is recorded for ["b"] and a retry is counted, and the
    play intent of the request for ["a"] is cleared. *)
Lemma superseded_timeout_records_error :
  (let w := run PlainJSON.stringify Examples.world0
              [PressPlay "b" true Examples.player;
               PressPlay "a" true Examples.player] in
   videoToPlayIntent (screen w) = Some "a"
   ∧ currentlyPlaying (screen w) = Some "a"
   ∧ videoErrors (screen w) = ∅
   ∧ (λ a, (a_videoId a, a_done a)) <$> attempts w
     = [("b", false); ("a", false)])
  ∧ (let w := run PlainJSON.stringify Examples.world0
                [PressPlay "b" true Examples.player;
                 PressPlay "a" true Examples.player;
                 LoadTimesOut 0] in
     videoErrors (screen w) !! "b"
       = Some {| message := "Video loading timed out." |}
     ∧ retryAttempts (screen w) !! "b" = Some (JS.Num 1)
     ∧ currentlyPlaying (screen w) = Some "a"
     ∧ videoToPlayIntent (screen w) = None).
Proof. by vm_compute. Qed.

(** C3, witness: the overtaken run for ["b"] on the screen where ["a"] is
    pending. *)
Lemma superseded_attempt_effects_witness :
  videoErrors (performPlayback_timeout Examples.overtaken Examples.pendingA)
    !! "b" = Some {| message := "Video loading timed out." |}
  ∧ videoErrors (performPlayback_settle Examples.overtaken
                   (LoadThrew "Network request failed") Examples.pendingA)
      !! "a" = videoErrors Examples.pendingA !! "a"
  ∧ currentlyPlaying
      (performPlayback_settle Examples.overtaken
         (LoadResolved Examples.playing (Engine.Ok ())) Examples.pendingA)
    = Some "a".
Proof.
  assert ("a" ≠ a_videoId Examples.overtaken) as Hne by done.
  pose proof (superseded_attempt_effects Examples.overtaken
                (LoadThrew "Network request failed") Examples.pendingA "a" Hne)
    as ((Hb & _) & _ & _ & (_ & _ & Ha & _) & _).
  pose proof (superseded_attempt_effects Examples.overtaken
                (LoadResolved Examples.playing (Engine.Ok ()))
                Examples.pendingA "a" Hne)
    as (_ & _ & Hok & _).
  split_and!; [exact Hb | exact Ha |].
  destruct Hok as (_ & _ & ->); reflexivity.
Defined.

(** C4, counterexample: from the duplicate-free selection holding ["a"], one
    toggle of ["a"] (an odd number) leaves a selection without ["a"]. *)
Lemma toggle_removes_initially_selected :
  NoDup (selectedVideos Examples.one)
  ∧ Nat.odd (timesToggled "a" (toggleCalls [("a", true)])) = true
  ∧ selectedVideos
      (runSession PlainJSON.stringify (toggleCalls [("a", true)])
         (Examples.one, ∅)).1 = [].
Proof.
  split; [apply NoDup_singleton | by vm_compute].
Qed.

(** C4, witness: three toggles on the empty selection, one of them failing
    to persist. *)
Lemma toggle_sequence_parity_witness :
  ("a" ∈ selectedVideos
           (runSession PlainJSON.stringify
              (toggleCalls [("a", true); ("b", false); ("a", true)])
              (Examples.loaded, ∅)).1
   ↔ Nat.odd (timesToggled "a"
                (toggleCalls [("a", true); ("b", false); ("a", true)])) = true)
  ∧ NoDup (selectedVideos
             (runSession PlainJSON.stringify
                (take 2 (toggleCalls [("a", true); ("b", false); ("a", true)]))
                (Examples.loaded, ∅)).1).
Proof.
  pose proof (toggle_sequence_parity PlainJSON.stringify
                [("a", true); ("b", false); ("a", true)]
                (Examples.loaded, ∅) "a" (NoDup_nil_2 : NoDup [])) as (_ & H & Hn).
  split; [apply H | apply Hn].
  apply (bool_decide_unpack _). by vm_compute.
Defined.

(** C6, counterexample: with the write failing, both toggles reject and yet
    the state in memory has changed. *)
Lemma failed_toggle_changes_state :
  toggleVideoSelectionInContext PlainJSON.stringify Examples.loaded "a" false
    (Examples.loaded, ∅)
  = (JS.Rejected, (Examples.one, ∅))
  ∧ selectedVideos Examples.loaded = []
  ∧ selectedVideos Examples.one = ["a"]
  ∧ (toggleRestrictedMode Examples.loaded false (Examples.loaded, ∅)).1
    = JS.Rejected
  ∧ restrictedMode Examples.loaded = false
  ∧ restrictedMode
      (toggleRestrictedMode Examples.loaded false (Examples.loaded, ∅)).2.1
    = true.
Proof. by vm_compute. Qed.

(** C7: the code at the failing input.  From the idle screen, play is
    requested for ["a"] and its load throws: the error is recorded for ["a"],
    and ["a"] is still the currently playing item, because the run's
    [handleVideoError] belongs to the render before [setCurrentlyPlaying]. *)
Theorem load_failure_keeps_errored_item_playing :
  let w := run PlainJSON.stringify Examples.world0
             [PressPlay "a" true Examples.player;
              LoadSettles 0 (LoadThrew "Network request failed")] in
  currentlyPlaying (screen w) = Some "a"
  ∧ videoErrors (screen w) !! "a"
    = Some {| message := "Network request failed" |}
  ∧ (errored_not_playing (screen Examples.world0)
     ∧ ¬ errored_not_playing (screen w)).
Proof.
  cbv zeta. split_and!; [by vm_compute.. | |].
  - intros videoId. by vm_compute.
  - intros Hinv. specialize (Hinv "a"). vm_compute in Hinv.
    by specialize (Hinv eq_refl).
Qed.

(** C9, counterexample: on a fresh store a [savePin] of the empty string
    succeeds and no clear follows, yet after the next launch [isPinSet] is
    false; and a launch on a store that holds a PIN makes [isPinSet] true
    with no [savePin] in that session. *)
Lemma isPinSet_false_after_reload :
  isPinSet (load PlainJSON.parse readsOk {["parentPin" := "1234"]}) = true
  ∧ launch PlainJSON.parse readsOk ∅ = Some MoreExamples.fresh
  ∧ (savePin "" true MoreExamples.fresh).1 = true
  ∧ savedSinceClear [SavePin "" true] false = true
  ∧ isPinSet
      (runSession PlainJSON.stringify [SavePin "" true] MoreExamples.fresh).1
    = true
  ∧ isPinSet
      (load PlainJSON.parse readsOk
         (runSession PlainJSON.stringify [SavePin "" true]
            MoreExamples.fresh).2) = false.
Proof. by vm_compute. Qed.

(** C8, counterexample: the stored text of the selection is the JSON
    literal null.  [JSON.parse] does not throw on it, and [load] installs
    [null] as the selection instead of the default empty list. *)
Lemma load_installs_stored_null :
  PlainJSON.parse "null" = Some JSON.Null
  ∧ selectedVideos
      (load PlainJSON.parse readsOk {["selectedVideos" := "null"]})
    = JSON.Null
  ∧ typed (load PlainJSON.parse readsOk {["selectedVideos" := "null"]}) = None
  ∧ selectedVideos (load PlainJSON.parse readsOk ∅) = JSON.Array [].
Proof. by vm_compute. Qed.

(** * Further properties of the settings store *)

Lemma clearSettings_ok_storage (db : AsyncStorage.t) (key : string) :
  (AsyncStorage.multiRemove
     ["parentPin"; "restrictedMode"; "selectedVideos"] true db).2 !! key
  = if bool_decide (key ∈ ["parentPin"; "restrictedMode"; "selectedVideos"])
    then None else db !! key.
Proof.
  cbn. case_bool_decide as Hkey.
  - rewrite !elem_of_cons in Hkey.
    destruct Hkey as [->|[->|[->|Hnil]]]; [| | |by apply elem_of_nil in Hnil].
    + apply lookup_delete_eq.
    + rewrite lookup_delete_ne by done. apply lookup_delete_eq.
    + rewrite !lookup_delete_ne by done. apply lookup_delete_eq.
  - rewrite !elem_of_cons in Hkey.
    rewrite !lookup_delete_ne; [done|naive_solver..].
Qed.

Section MoreSettingsFacts.

Variable JSON_parse : string → option JSON.value.
Variable JSON_stringify : list string → string.

Local Abbreviation session := (runSession JSON_stringify).
Local Abbreviation stepOp := (sessionStep JSON_stringify).

Lemma session_app ops1 ops2 w :
  session (ops1 ++ ops2) w = session ops2 (session ops1 w).
Proof. unfold runSession. apply foldl_app. Qed.


Lemma pinMirrors_step w op : pinMirrors w → pinMirrors (stepOp w op).
Proof.
  unfold pinMirrors. intros Hw.
  destruct op as [newPin [] | v ok | ok | []]; cbn.
  - by rewrite lookup_insert_eq.
  - done.
  - unfold toggleVideoSelectionInContext, AsyncStorage.setItem.
    destruct ok; cbn; [by rewrite lookup_insert_ne|done].
  - unfold toggleRestrictedMode, AsyncStorage.setItem.
    destruct ok; cbn; [by rewrite lookup_insert_ne|done].
  - rewrite lookup_delete_eq. done.
  - done.
Qed.

Lemma modeMirrors_step w op :
  op ≠ ToggleRestricted false → modeMirrors w → modeMirrors (stepOp w op).
Proof.
  unfold modeMirrors. intros Hop Hw.
  destruct op as [newPin [] | v ok | [] | []]; cbn; try done.
  - by rewrite lookup_insert_ne.
  - unfold toggleVideoSelectionInContext, AsyncStorage.setItem.
    destruct ok; cbn; [by rewrite lookup_insert_ne|done].
  - rewrite lookup_insert_eq. by destruct (restrictedMode w.1).
  - rewrite lookup_delete_ne by done. rewrite lookup_delete_eq. done.
Qed.


(** X2: the PIN in memory and the stored PIN stay equal through every
    operation of a session, whether its write succeeds or fails; and a load
    whose PIN read resolves then recovers the PIN held, unless that PIN is
    the empty string. *)
Theorem pin_agrees_with_storage (w : Settings * AsyncStorage.t)
    (ops : list SessionOp) (io : ReadOutcomes) :
  pinMirrors w →
  pinMirrors (session ops w)
  ∧ (readPin io = true → pin (session ops w).1 ≠ Some "" →
     pin (load JSON_parse io (session ops w).2) = pin (session ops w).1
     ∧ isPinSet (load JSON_parse io (session ops w).2)
       = bool_decide (is_Some (pin (session ops w).1))).
Proof.
  intros Hw.
  assert (pinMirrors (session ops w)) as Hm.
  { induction ops as [|op ops IH] using rev_ind; [done|].
    rewrite session_app. by apply pinMirrors_step. }
  split; [done|]. intros Hread Hne.
  destruct (load_fields JSON_parse io (session ops w).2) as (_ & Hpin & Hset & _).
  rewrite Hpin, Hset, Hread. unfold pinMirrors in Hm. rewrite <- Hm.
  destruct (pin (session ops w).1) as [p|]; cbn; [|done].
  rewrite bool_decide_eq_false_2 by congruence. cbn.
  by split.
Qed.

(** X3: as long as no [toggleRestrictedMode] of the session fails to write,
    the restricted-mode flag in memory is the stored one, so a load whose
    reads resolve recovers it. *)
Theorem restrictedMode_agrees_with_storage (w : Settings * AsyncStorage.t)
    (ops : list SessionOp) (io : ReadOutcomes) :
  modeMirrors w → modeWritesOk ops →
  modeMirrors (session ops w)
  ∧ (readPin io = true → readMode io = true →
     restrictedMode (load JSON_parse io (session ops w).2)
     = restrictedMode (session ops w).1).
Proof.
  intros Hw Hops.
  assert (modeMirrors (session ops w)) as Hm.
  { induction ops as [|op ops IH] using rev_ind; [done|].
    apply Forall_app in Hops as [Hops Hop].
    rewrite session_app. apply modeMirrors_step; [|by apply IH].
    exact (proj1 (Forall_singleton _ _) Hop). }
  split; [done|]. intros Hpin Hmode.
  destruct (load_fields JSON_parse io (session ops w).2)
    as (_ & _ & _ & Hload & _).
  rewrite Hload, Hpin, Hmode. cbn. by rewrite Hm.
Qed.

(** X4: a toggle whose write succeeds is recovered by a load whose reads
    resolve, provided the JSON text of the new list is not empty and parses
    back to the list. *)
Theorem selection_survives_reload (w : Settings * AsyncStorage.t)
    (videoId : string) :
  let new := newSelectedVideos (selectedVideos w.1) videoId in
  JSON_stringify new ≠ "" →
  JSON_parse (JSON_stringify new) = Some (JSON.ofStrings new) →
  selectedVideos
    (load JSON_parse readsOk
       (toggleVideoSelectionInContext JSON_stringify w.1 videoId true w).2.2)
  = JSON.ofStrings
      (selectedVideos
         (toggleVideoSelectionInContext JSON_stringify w.1 videoId true w).2.1).
Proof.
  intros new Hne Hparse.
  destruct (load_fields JSON_parse readsOk
              (toggleVideoSelectionInContext JSON_stringify w.1 videoId true w).2.2)
    as (_ & _ & _ & _ & Hsel).
  rewrite Hsel, toggle_state. cbn. rewrite lookup_insert_eq.
  fold new. rewrite (bool_decide_eq_false_2 _ Hne), Hparse. done.
Qed.

(** X5: a [clearSettings] whose removal succeeds resets PIN, flag, mode and
    selection to their defaults, removes the three entries and no other, and
    makes the next load yield what it yields on an empty store; one whose
    removal fails rejects and changes nothing.  [handleResetSettings] shows
    'Success' in the first case and 'Error' in the second, and in both ends
    with its loading flag cleared and its dialog closed. *)
Theorem clearSettings_resets (w : Settings * AsyncStorage.t)
    (io : ReadOutcomes) (st : SettingsScreen.State) :
  SettingsScreen.handleResetSettings true st w
  = (SettingsScreen.ResetDone, SettingsScreen.mk false false,
     (clearSettings true w).2)
  ∧ SettingsScreen.handleResetSettings false st w
    = (SettingsScreen.ResetFailed, SettingsScreen.mk false false, w)
  ∧ (clearSettings true w).1 = JS.Fulfilled ()
  ∧ (clearSettings true w).2.1
    = {| isLoading := isLoading w.1; isPinSet := false; pin := None;
         restrictedMode := false; selectedVideos := [] |}
  ∧ (∀ key, (clearSettings true w).2.2 !! key
            = if bool_decide
                   (key ∈ ["parentPin"; "restrictedMode"; "selectedVideos"])
              then None else w.2 !! key)
  ∧ load JSON_parse io (clearSettings true w).2.2 = load JSON_parse io ∅
  ∧ clearSettings false w = (JS.Rejected, w).
Proof.
  split_and!; [done | by destruct w | done | done | | | by destruct w].
  - intros key. apply clearSettings_ok_storage.
  - unfold load, loadSettings, loadSettings_try, AsyncStorage.getItem.
    rewrite !(clearSettings_ok_storage w.2), !lookup_empty.
    repeat (rewrite bool_decide_eq_true_2 by set_solver). done.
Qed.

End MoreSettingsFacts.

Lemma without_not_elem videoId l : videoId ∉ l → JS.without videoId l = l.
Proof.
  intros Hnot. unfold JS.without. induction l as [|x l IH]; [done|].
  apply not_elem_of_cons in Hnot as [Hne Hnot].
  rewrite filter_cons_True by done. by rewrite IH.
Qed.

Lemma without_snoc videoId l :
  JS.without videoId (l ++ [videoId]) = JS.without videoId l.
Proof.
  unfold JS.without.
  rewrite filter_app, filter_cons_False by (intros Hx; by apply Hx).
  by rewrite filter_nil, app_nil_r.
Qed.

Lemma not_elem_without videoId l : videoId ∉ JS.without videoId l.
Proof.
  unfold JS.without. rewrite list_elem_of_filter. intros [Hne _]. by apply Hne.
Qed.

Lemma without_newSelectedVideos videoId l :
  JS.without videoId (newSelectedVideos l videoId) = JS.without videoId l.
Proof.
  unfold newSelectedVideos, JS.includes. case_bool_decide.
  - apply without_not_elem, not_elem_without.
  - apply without_snoc.
Qed.

Lemma newSelectedVideos_twice videoId l :
  newSelectedVideos (newSelectedVideos l videoId) videoId
  = if bool_decide (videoId ∈ l) then JS.without videoId l ++ [videoId] else l.
Proof.
  unfold newSelectedVideos at 2. unfold JS.includes.
  case_bool_decide as Hin.
  - unfold newSelectedVideos, JS.includes.
    rewrite bool_decide_eq_false_2 by apply not_elem_without. done.
  - unfold newSelectedVideos, JS.includes.
    rewrite bool_decide_eq_true_2 by set_solver.
    rewrite without_snoc. by apply without_not_elem.
Qed.

Section ToggleAlgebra.

Variable JSON_stringify : list string → string.

Local Abbreviation session := (runSession JSON_stringify).

(** X6: toggling an id leaves every other id where it is, in the same
    order; toggling it twice restores the selection when the id was not
    selected, and moves the id to the end when it was (whether or not the
    writes succeed). *)
Theorem toggle_twice (w : Settings * AsyncStorage.t) (videoId : string)
    (ok1 ok2 : bool) :
  JS.without videoId
    (selectedVideos (session [ToggleSelection videoId ok1] w).1)
  = JS.without videoId (selectedVideos w.1)
  ∧ selectedVideos
      (session [ToggleSelection videoId ok1; ToggleSelection videoId ok2] w).1
    = (if bool_decide (videoId ∈ selectedVideos w.1)
       then JS.without videoId (selectedVideos w.1) ++ [videoId]
       else selectedVideos w.1).
Proof.
  split.
  - unfold runSession. cbn [foldl]. rewrite sessionStep_toggle.
    apply without_newSelectedVideos.
  - unfold runSession. cbn [foldl]. rewrite !sessionStep_toggle.
    apply newSelectedVideos_twice.
Qed.

End ToggleAlgebra.

(** * Properties of the PIN screens *)

Section PinScreens.

Variable JSON_parse : string → option JSON.value.

(** X7: [handleSetPin] writes nothing unless both fields are filled, the PIN
    has at least 4 characters and the confirmation equals it; when it
    reports success the PIN is held and stored, and a load whose PIN read
    resolves finds it again: [isPinSet] is true and [verifyPin] accepts it. *)
Theorem handleSetPin_spec (ok : bool) (s : PinSetup.State)
    (w : Settings * AsyncStorage.t) (io : ReadOutcomes) :
  match (PinSetup.handleSetPin ok s w).1.1 with
  | PinSetup.Saved =>
      ok = true
      ∧ 4 ≤ String.length (PinSetup.pin s)
      ∧ PinSetup.confirmPin s = PinSetup.pin s
      ∧ pin (PinSetup.handleSetPin ok s w).2.1 = Some (PinSetup.pin s)
      ∧ (PinSetup.handleSetPin ok s w).2.2 !! "parentPin"
        = Some (PinSetup.pin s)
      ∧ verifyPin (PinSetup.handleSetPin ok s w).2.1 (PinSetup.pin s) = true
      ∧ (readPin io = true →
         isPinSet (load JSON_parse io (PinSetup.handleSetPin ok s w).2.2)
           = true
         ∧ verifyPin (load JSON_parse io (PinSetup.handleSetPin ok s w).2.2)
             (PinSetup.pin s) = true)
  | _ => (PinSetup.handleSetPin ok s w).2 = w
  end.
Proof.
  unfold PinSetup.handleSetPin.
  destruct (negb (JS.truthy (Some (PinSetup.pin s)))
            || negb (JS.truthy (Some (PinSetup.confirmPin s)))); [done|].
  case_bool_decide as Hlen; [done|].
  destruct (bool_decide (PinSetup.pin s = PinSetup.confirmPin s)) eqn:Heq;
    [|done]. apply bool_decide_eq_true in Heq.
  destruct ok; cbn -[load]; [|by destruct w].
  split_and!; [done | lia | done | done | apply lookup_insert_eq | |].
  - unfold verifyPin. cbn. by apply bool_decide_eq_true_2.
  - intros Hread.
    destruct (load_fields JSON_parse io (<["parentPin":=PinSetup.pin s]> w.2))
      as (_ & Hpin & Hset & _).
    rewrite lookup_insert_eq, Hread in Hpin, Hset.
    assert (JS.truthy (Some (PinSetup.pin s)) = true) as Htruthy.
    { cbn. apply negb_true_iff, bool_decide_eq_false_2. intros Hempty.
      rewrite Hempty in Hlen. cbn in Hlen. lia. }
    rewrite Htruthy in Hpin, Hset. cbn -[load] in Hpin, Hset.
    split; [done|]. unfold verifyPin. rewrite Hpin.
    by apply bool_decide_eq_true_2.
Qed.

End PinScreens.

Lemma handleVerifyPin_isSuccess settings s :
  PinEntry.isSuccess (PinEntry.handleVerifyPin settings s)
  = bool_decide (4 ≤ String.length (PinEntry.enteredPin s))
    && verifyPin settings (PinEntry.enteredPin s).
Proof.
  unfold PinEntry.handleVerifyPin.
  case_bool_decide as Hlen.
  - rewrite bool_decide_eq_false_2 by lia. done.
  - rewrite (bool_decide_eq_true_2 (4 ≤ _)) by lia. cbn.
    destruct (verifyPin settings _); [done|].
    by destruct (bool_decide (3 ≤ _)).
Qed.

Lemma handleVerifyPin_enteredPin settings s :
  PinEntry.enteredPin (PinEntry.handleVerifyPin settings s)
  = PinEntry.enteredPin s
  ∨ PinEntry.enteredPin (PinEntry.handleVerifyPin settings s) = "".
Proof.
  unfold PinEntry.handleVerifyPin.
  case_bool_decide; [by left|].
  destruct (verifyPin settings _); [by left|].
  right. by destruct (bool_decide (3 ≤ _)).
Qed.

Lemma PinEntry_session_sound settings acts s s' :
  PinEntry.session settings s acts = (s', Some PinEntry.ToSettings) →
  PinEntry.isSuccess s = false →
  ∃ v, (v = PinEntry.enteredPin s ∨ PinEntry.TypePin v ∈ acts)
       ∧ pin settings = Some v ∧ 4 ≤ String.length v.
Proof.
  revert s. induction acts as [|a acts IH]; intros s Hrun Hs; [done|].
  destruct a as [v0| |]; cbn in Hrun.
  - destruct (IH _ Hrun Hs) as (v & [Hv|Hin] & Hpin & Hlen);
      exists v; (split; [right|done]); [rewrite Hv; by left|by right].
  - destruct (PinEntry.isSuccess (PinEntry.handleVerifyPin settings s)) eqn:Hok.
    + rewrite handleVerifyPin_isSuccess in Hok.
      apply andb_true_iff in Hok as [Hlen Hpin].
      apply bool_decide_eq_true in Hlen. apply verifyPin_true in Hpin.
      exists (PinEntry.enteredPin s). split_and!; [by left|done..].
    + destruct (IH _ Hrun Hok) as (v & [Hv|Hin] & Hpin & Hlen).
      * destruct (handleVerifyPin_enteredPin settings s) as [Heq|Heq];
          rewrite Heq in Hv; subst v.
        -- exists (PinEntry.enteredPin s). split_and!; [by left|done..].
        -- cbn in Hlen. lia.
      * exists v. split_and!; [right; by right|done..].
  - unfold PinEntry.handleAlertClose in Hrun. rewrite Hs in Hrun.
    destruct (bool_decide (3 ≤ PinEntry.attempts s)); [done|].
    destruct (IH _ Hrun eq_refl) as (v & [Hv|Hin] & Hpin & Hlen);
      exists v; (split; [|done]); [by left|right; by right].
Qed.

(** X8: whatever is typed and pressed on the PIN entry screen, it routes to
    the settings only if the PIN held by the settings context was typed, and
    that PIN has at least 4 characters. *)
Theorem settings_reached_only_with_pin (settings : Settings)
    (acts : list PinEntry.Action) (s' : PinEntry.State) :
  PinEntry.session settings PinEntry.initial acts
  = (s', Some PinEntry.ToSettings) →
  ∃ v, PinEntry.TypePin v ∈ acts ∧ pin settings = Some v
       ∧ 4 ≤ String.length v.
Proof.
  intros Hrun.
  destruct (PinEntry_session_sound _ _ _ _ Hrun eq_refl)
    as (v & [Hv|Hin] & Hpin & Hlen); [subst v; cbn in Hlen; lia|]. eauto.
Qed.

(** X9: on the PIN entry screen a complete PIN (4 characters or more) that
    is not the held one counts one failed attempt, clears the field and sets
    no success; from the third failed attempt on the alert is 'Too Many
    Attempts' and closing it leaves the screen.  The held PIN, typed and
    submitted, routes to the settings whatever the number of failed
    attempts. *)
Theorem pin_entry_attempts (settings : Settings) (s : PinEntry.State)
    (v : string) :
  4 ≤ String.length v →
  (pin settings ≠ Some v →
   let s1 := PinEntry.handleVerifyPin settings (PinEntry.setEnteredPin v s) in
   PinEntry.attempts s1 = PinEntry.attempts s + 1
   ∧ PinEntry.enteredPin s1 = ""
   ∧ PinEntry.isSuccess s1 = false
   ∧ PinEntry.alertTitle s1
     = (if bool_decide (3 ≤ PinEntry.attempts s + 1)
        then "Too Many Attempts" else "Incorrect PIN")
   ∧ (PinEntry.handleAlertClose s1).2
     = (if bool_decide (3 ≤ PinEntry.attempts s + 1)
        then Some PinEntry.Back else None))
  ∧ (pin settings = Some v →
     (PinEntry.session settings s
        [PinEntry.TypePin v; PinEntry.PressUnlock; PinEntry.CloseAlert]).2
     = Some PinEntry.ToSettings).
Proof.
  intros Hlen. split.
  - intros Hpin. cbv zeta. unfold PinEntry.handleVerifyPin. cbn.
    rewrite bool_decide_eq_false_2 by lia.
    assert (verifyPin settings v = false) as ->.
    { unfold verifyPin. apply bool_decide_eq_false_2. congruence. }
    destruct (bool_decide (3 ≤ PinEntry.attempts s + 1)) eqn:Hthree; cbn;
      by rewrite ?Hthree.
  - intros Hpin. cbn. unfold PinEntry.handleVerifyPin. cbn.
    rewrite bool_decide_eq_false_2 by lia.
    assert (verifyPin settings v = true) as -> by by apply verifyPin_true.
    done.
Qed.

(** * Properties of the PIN keypad *)

Lemma string_length_app (s1 s2 : string) :
  String.length (s1 +:+ s2) = String.length s1 + String.length s2.
Proof. induction s1 as [|c s1 IH]; simpl; [done|by f_equal]. Qed.

Lemma string_length_substring (m : nat) (s : string) :
  String.length (String.substring 0 m s) = m `min` String.length s.
Proof.
  revert m. induction s as [|c s IH]; intros [|m]; simpl; try done.
  f_equal. apply IH.
Qed.

Lemma keypad_digit showCancel key :
  key ∈ PinInput.keys showCancel →
  String.leb "0" key && String.leb key "9" = true →
  String.length key = 1.
Proof.
  unfold PinInput.keys. rewrite !elem_of_cons.
  intros Hkey Hdigit.
  destruct showCancel;
    repeat (destruct Hkey as [->|Hkey]; [by vm_compute in Hdigit |- *|]);
    by apply elem_of_nil in Hkey.
Qed.

Lemma press_bounded showCancel onCancel key pin :
  key ∈ PinInput.keys showCancel →
  String.length pin ≤ PinInput.PIN_LENGTH →
  String.length (PinInput.press onCancel key pin).1 ≤ PinInput.PIN_LENGTH
  ∧ Forall (λ e, ∀ p, e = PinInput.Submit p →
                      String.length p = PinInput.PIN_LENGTH)
      (PinInput.press onCancel key pin).2.
Proof.
  intros Hkey Hpin. unfold PinInput.press.
  case_bool_decide as Hempty; [done|].
  destruct (String.leb "0" key && String.leb key "9") eqn:Hdigit.
  - pose proof (keypad_digit _ _ Hkey Hdigit) as Hone.
    unfold PinInput.handleKeyPress.
    case_bool_decide as Hlt; [|done]. cbn.
    rewrite string_length_app, Hone. split; [unfold PinInput.PIN_LENGTH in *; lia|].
    case_bool_decide as Hfull; [|done].
    apply Forall_singleton. intros p [= <-].
    by rewrite string_length_app, Hone.
  - case_bool_decide as Hdel.
    + cbn. split; [|done]. unfold PinInput.handleDelete, PinInput.dropLast.
      rewrite string_length_substring. lia.
    + destruct (bool_decide (key = "Cancel") && onCancel); cbn;
        (split; [done|]); [|done].
      apply Forall_singleton. by intros p.
Qed.

(** X10: through any sequence of presses on the keypad, the PIN held by
    [PinInput] never has more than 4 characters, and every PIN it submits
    has exactly 4. *)
Theorem pin_input_bounded (showCancel onCancel : bool) (ks : list string)
    (pin : string) :
  Forall (λ key, key ∈ PinInput.keys showCancel) ks →
  String.length pin ≤ PinInput.PIN_LENGTH →
  String.length (PinInput.presses onCancel ks pin).1 ≤ PinInput.PIN_LENGTH
  ∧ Forall (λ e, ∀ p, e = PinInput.Submit p →
                      String.length p = PinInput.PIN_LENGTH)
      (PinInput.presses onCancel ks pin).2.
Proof.
  intros Hks Hpin. induction ks as [|key ks IH] using rev_ind; [done|].
  apply Forall_app in Hks as [Hks Hkey].
  pose proof (proj1 (Forall_singleton _ _) Hkey) as Hkey'.
  destruct (IH Hks) as [Hlen Hout].
  unfold PinInput.presses in *. rewrite foldl_app. cbn.
  destruct (press_bounded showCancel onCancel key _ Hkey' Hlen) as [Hlen' Hout'].
  destruct (PinInput.press onCancel key _) as [p out]. cbn in *.
  split; [done|]. by apply Forall_app.
Qed.

(** * Further properties of the playback controller *)

Lemma handleVideoError_hasSimulatedPremium r videoId m s :
  hasSimulatedPremium (handleVideoError r videoId m s) = hasSimulatedPremium s.
Proof.
  unfold handleVideoError.
  by destruct (bool_decide (currentlyPlaying r = Some videoId)),
       (bool_decide (videoToPlayIntent r = Some videoId)).
Qed.

Lemma performPlayback_settle_hasSimulatedPremium a o s :
  hasSimulatedPremium (performPlayback_settle a o s) = hasSimulatedPremium s.
Proof.
  unfold performPlayback_settle.
  destruct o as [m|[[] [] ? ?] [[]|m]]; cbn;
    rewrite ?handleVideoError_hasSimulatedPremium; reflexivity.
Qed.

Lemma performPlayback_begin_hasSimulatedPremium r s :
  hasSimulatedPremium (performPlayback_begin r s).1 = hasSimulatedPremium s.
Proof.
  unfold performPlayback_begin.
  destruct (negb (JS.truthy (videoToPlayIntent r))); [done|].
  destruct (videoToPlayIntent r) as [videoId|]; [|done].
  destruct (negb (videoRef s videoId)); cbn;
    [by rewrite handleVideoError_hasSimulatedPremium|].
  destruct (negb (JS.truthy _)); cbn;
    [by rewrite handleVideoError_hasSimulatedPremium|done].
Qed.

Lemma handleVideoPlayback_hasSimulatedPremium r videoId online p s :
  hasSimulatedPremium (handleVideoPlayback r videoId online p s)
  = hasSimulatedPremium s.
Proof.
  destruct (handleVideoPlayback_cases r videoId online p s)
    as [(m & s0 & Hs0 & ->)|[[st ->]| ->]]; [|done..].
  rewrite handleVideoError_hasSimulatedPremium.
  by destruct Hs0 as [->|[st ->]].
Qed.

Lemma onPlaybackStatusUpdate_hasSimulatedPremium r videoId status s :
  hasSimulatedPremium (onPlaybackStatusUpdate r videoId status s)
  = hasSimulatedPremium s.
Proof.
  unfold onPlaybackStatusUpdate.
  destruct (bool_decide (Some videoId = currentlyPlaying r) && isLoaded status);
    [|done].
  destruct (error status) as [e|];
    [by rewrite handleVideoError_hasSimulatedPremium|].
  by destruct (didJustFinish status).
Qed.

Section MorePlaybackFacts.

Variable JSON_stringify : list string → string.

Local Abbreviation requestSelection :=
  (handleToggleVideoSelection JSON_stringify).

Lemma useEffect_playback_context before w :
  context (useEffect_playback before w) = context w.
Proof.
  unfold useEffect_playback. destruct (bool_decide _); [done|].
  by destruct (performPlayback_begin _ _).
Qed.

Lemma useEffect_playback_hasSimulatedPremium before w :
  hasSimulatedPremium (screen (useEffect_playback before w))
  = hasSimulatedPremium (screen w).
Proof.
  unfold useEffect_playback. destruct (bool_decide _); [done|].
  pose proof (performPlayback_begin_hasSimulatedPremium (screen w) (screen w)).
  by destruct (performPlayback_begin _ _).
Qed.

Lemma handle_hasSimulatedPremium w e :
  hasSimulatedPremium (screen (handle JSON_stringify w e))
  = hasSimulatedPremium (screen w).
Proof.
  destruct e as [v online p|v|v ok|n o|n|v status|v m];
    unfold handle; cbv zeta.
  - destruct (playButton _ || pauseButton _); [|done].
    apply handleVideoPlayback_hasSimulatedPremium.
  - by destruct (retryButton _).
  - done.
  - destruct (attempts w !! n) as [a|]; [|done].
    destruct (a_done a); [done|].
    apply performPlayback_settle_hasSimulatedPremium.
  - destruct (attempts w !! n) as [a|]; [|done].
    destruct (a_timer a && negb (a_done a)); [|done].
    apply handleVideoError_hasSimulatedPremium.
  - apply onPlaybackStatusUpdate_hasSimulatedPremium.
  - apply handleVideoError_hasSimulatedPremium.
Qed.

Lemma requestSelection_capped r w videoId ok :
  hasSimulatedPremium r = false →
  length (selectedVideos w.1) ≤ MAX_FREE_SELECTIONS →
  length (selectedVideos (requestSelection r w.1 videoId ok w).2.1)
  ≤ MAX_FREE_SELECTIONS.
Proof.
  intros Hprem Hlen. unfold handleToggleVideoSelection.
  destruct (isSimulatingPurchase r); [done|]. rewrite Hprem.
  unfold JS.includes. case_bool_decide as Hin; cbn.
  - unfold toggleVideoSelectionInContext, newSelectedVideos, JS.includes,
      AsyncStorage.setItem.
    rewrite (bool_decide_eq_true_2 _ Hin).
    destruct ok; cbn; unfold JS.without;
      (etrans; [apply length_filter|done]).
  - case_bool_decide as Hfull; cbn; [done|].
    unfold toggleVideoSelectionInContext, newSelectedVideos, JS.includes,
      AsyncStorage.setItem.
    rewrite (bool_decide_eq_false_2 _ Hin).
    destruct ok; cbn; rewrite length_app; cbn; lia.
Qed.

(** X11: without the entitlement, no sequence of events on the screen
    (presses on play, retry and select, completions and timeouts of loads,
    status updates and player errors) makes the selection longer than 5,
    provided it is not longer at the start; and none of them grants the
    entitlement. *)
Theorem free_selection_capped (w : World) (es : list Event) :
  hasSimulatedPremium (screen w) = false →
  length (selectedVideos (context w).1) ≤ MAX_FREE_SELECTIONS →
  length (selectedVideos (context (run JSON_stringify w es)).1)
    ≤ MAX_FREE_SELECTIONS
  ∧ hasSimulatedPremium (screen (run JSON_stringify w es)) = false.
Proof.
  intros Hprem Hlen. induction es as [|e es IH] using rev_ind; [done|].
  destruct IH as [IHlen IHprem].
  unfold run in *. rewrite foldl_app. cbn [foldl].
  set (w1 := foldl (step JSON_stringify) w es) in *.
  unfold step.
  rewrite useEffect_playback_context, useEffect_playback_hasSimulatedPremium,
    handle_hasSimulatedPremium.
  split; [|done].
  destruct e as [v online p|v|v ok|n o|n|v status|v m];
    unfold handle; cbv zeta.
  - by destruct (playButton _ || pauseButton _).
  - by destruct (retryButton _).
  - by apply requestSelection_capped.
  - destruct (attempts w1 !! n) as [a|]; [|done]. by destruct (a_done a).
  - destruct (attempts w1 !! n) as [a|]; [|done].
    by destruct (a_timer a && negb (a_done a)).
  - done.
  - done.
Qed.

End MorePlaybackFacts.

Lemma untouched_trans other s1 s2 s3 :
  untouched other s1 s2 → untouched other s2 s3 → untouched other s1 s3.
Proof. intros [? ?] [? ?]. split; congruence. Qed.

Lemma handleVideoError_untouched r videoId m s other :
  other ≠ videoId → untouched other s (handleVideoError r videoId m s).
Proof.
  intros Hne. split.
  - rewrite handleVideoError_videoErrors. by rewrite lookup_insert_ne.
  - rewrite handleVideoError_retryAttempts. by rewrite lookup_insert_ne.
Qed.

Lemma retryVideo_untouched videoId s other :
  other ≠ videoId → untouched other s (retryVideo videoId s).
Proof. intros Hne. split; cbn; by rewrite lookup_delete_ne. Qed.

Lemma handleVideoPlayback_untouched r videoId online p s other :
  other ≠ videoId →
  untouched other s (handleVideoPlayback r videoId online p s).
Proof.
  intros Hne.
  destruct (handleVideoPlayback_cases r videoId online p s)
    as [(m & s0 & Hs0 & ->)|[[st ->]| ->]]; [|done..].
  destruct Hs0 as [->|[st ->]]; [by apply handleVideoError_untouched|].
  by apply (handleVideoError_untouched _ _ _ (cacheStatus _ _ s)).
Qed.

Lemma onPlaybackStatusUpdate_untouched r videoId status s other :
  other ≠ videoId →
  untouched other s (onPlaybackStatusUpdate r videoId status s).
Proof.
  intros Hne. unfold onPlaybackStatusUpdate.
  destruct (bool_decide (Some videoId = currentlyPlaying r) && isLoaded status);
    [|done].
  destruct (error status) as [e|];
    [by apply (handleVideoError_untouched _ _ _ (cacheStatus _ _ s))|].
  by destruct (didJustFinish status).
Qed.

Lemma performPlayback_settle_untouched a o s other :
  other ≠ a_videoId a → untouched other s (performPlayback_settle a o s).
Proof.
  intros Hne. split.
  - rewrite performPlayback_settle_videoErrors.
    destruct (settleFails o); [by rewrite lookup_insert_ne|done].
  - rewrite performPlayback_settle_retryAttempts.
    destruct (settleFails o); [by rewrite lookup_insert_ne|done].
Qed.

Lemma performPlayback_begin_untouched r s other :
  videoToPlayIntent r ≠ Some other →
  untouched other s (performPlayback_begin r s).1.
Proof.
  intros Hne. unfold performPlayback_begin.
  destruct (negb (JS.truthy (videoToPlayIntent r))); [done|].
  destruct (videoToPlayIntent r) as [videoId|]; [|done].
  assert (other ≠ videoId) as Hother by congruence.
  set (s1 := setVideoErrors (λ prev, delete videoId prev) s).
  assert (untouched other s s1) as Hs1.
  { split; cbn; [by rewrite lookup_delete_ne|done]. }
  destruct (negb (videoRef s videoId)); cbn.
  { eapply untouched_trans; [exact Hs1|].
    by apply (handleVideoError_untouched r videoId _ s1). }
  destruct (negb (JS.truthy _)); cbn; [|exact Hs1].
  eapply untouched_trans; [exact Hs1|].
  by apply (handleVideoError_untouched r videoId _ s1).
Qed.

Lemma handleVideoPlayback_videoToPlayIntent r videoId online p s :
  videoToPlayIntent (handleVideoPlayback r videoId online p s)
  ∈ [videoToPlayIntent s; None; Some videoId].
Proof.
  destruct (handleVideoPlayback_cases r videoId online p s)
    as [(m & s0 & Hs0 & ->)|[[st ->]| ->]];
    [|by left|right; right; by left].
  rewrite handleVideoError_videoToPlayIntent.
  destruct (bool_decide _); [right; by left|].
  destruct Hs0 as [->|[st ->]]; by left.
Qed.

Section ErrorScope.

Variable JSON_stringify : list string → string.

Lemma handle_untouched w e other :
  eventId w e ≠ Some other →
  untouched other (screen w) (screen (handle JSON_stringify w e)).
Proof.
  intros Hne.
  destruct e as [v online p|v|v ok|n o|n|v status|v m];
    unfold handle; cbv zeta; cbn in Hne.
  - destruct (playButton _ || pauseButton _); [|done].
    apply handleVideoPlayback_untouched. congruence.
  - destruct (retryButton _); [|done].
    apply retryVideo_untouched. congruence.
  - done.
  - destruct (attempts w !! n) as [a|]; [|done].
    destruct (a_done a); [done|].
    apply performPlayback_settle_untouched. cbn in Hne. congruence.
  - destruct (attempts w !! n) as [a|]; [|done].
    destruct (a_timer a && negb (a_done a)); [|done].
    apply handleVideoError_untouched. cbn in Hne. congruence.
  - apply onPlaybackStatusUpdate_untouched. congruence.
  - apply handleVideoError_untouched. congruence.
Qed.

Lemma handle_videoToPlayIntent w e :
  videoToPlayIntent (screen (handle JSON_stringify w e))
  ∈ [videoToPlayIntent (screen w); None; eventId w e].
Proof.
  destruct e as [v online p|v|v ok|n o|n|v status|v m];
    unfold handle; cbv zeta; cbn [eventId].
  - destruct (playButton _ || pauseButton _); [|set_solver].
    apply handleVideoPlayback_videoToPlayIntent.
  - destruct (retryButton _); set_solver.
  - set_solver.
  - destruct (attempts w !! n) as [a|]; [|set_solver].
    destruct (a_done a); set_solver.
  - destruct (attempts w !! n) as [a|]; [|set_solver].
    destruct (a_timer a && negb (a_done a)); [|set_solver].
    cbn. unfold performPlayback_timeout.
    rewrite handleVideoError_videoToPlayIntent.
    destruct (bool_decide _); set_solver.
  - cbn. unfold onPlaybackStatusUpdate.
    destruct (bool_decide (Some v = currentlyPlaying (screen w))
              && isLoaded status); [|set_solver].
    destruct (error status) as [e|].
    + rewrite handleVideoError_videoToPlayIntent.
      destruct (bool_decide _); set_solver.
    + destruct (didJustFinish status); set_solver.
  - cbn. unfold onError. rewrite handleVideoError_videoToPlayIntent.
    destruct (bool_decide _); set_solver.
Qed.

(** X12: an event changes the error entry and the retry count of no item
    but the one it is about (for the completion or the timeout of a load:
    the item of that run); this includes the run of [performPlayback] the
    event may start. *)
Theorem errors_scoped_to_item (w : World) (e : Event) (other : string) :
  eventId w e ≠ Some other →
  videoErrors (screen (step JSON_stringify w e)) !! other
  = videoErrors (screen w) !! other
  ∧ retryAttempts (screen (step JSON_stringify w e)) !! other
    = retryAttempts (screen w) !! other.
Proof.
  intros Hne. pose proof (handle_untouched w e other Hne) as Hh.
  unfold step, useEffect_playback.
  case_bool_decide as Hintent; [exact Hh|].
  pose proof (handle_videoToPlayIntent w e) as Hin.
  assert (videoToPlayIntent (screen (handle JSON_stringify w e)) ≠ Some other)
    as Hnot.
  { rewrite !elem_of_cons in Hin.
    destruct Hin as [Heq|[Heq|[Heq|Hnil]]]; [done|congruence|congruence|].
    by apply elem_of_nil in Hnil. }
  pose proof (performPlayback_begin_untouched
                (screen (handle JSON_stringify w e))
                (screen (handle JSON_stringify w e)) other Hnot) as Hb.
  destruct (performPlayback_begin _ _) as [s a]. cbn in *.
  exact (untouched_trans _ _ _ _ Hh Hb).
Qed.

End ErrorScope.

(** * The retry cap *)






Section RetryCap.

Variable JSON_stringify : list string → string.

Local Abbreviation step' := (step JSON_stringify).
Local Abbreviation item w :=
  (renderVideoItem (screen w) (selectedVideos (context w).1)).






End RetryCap.

Lemma performPlayback_begin_playable s videoId :
  videoToPlayIntent s = Some videoId → playable s videoId →
  performPlayback_begin s s
  = (pendingState videoId s, Some (startedRun videoId s)).
Proof.
  intros Hintent (Hne & Href & Hurl). unfold performPlayback_begin.
  rewrite Hintent. cbn -[find videoRef].
  rewrite (bool_decide_eq_false_2 _ Hne), Href.
  cbn -[find]. by rewrite Hurl.
Qed.

Lemma performPlayback_begin_idle s :
  videoToPlayIntent s = None → performPlayback_begin s s = (s, None).
Proof. intros Hintent. unfold performPlayback_begin. by rewrite Hintent. Qed.

Section PlaybackPaths.

Variable JSON_stringify : list string → string.

Local Abbreviation step' := (step JSON_stringify).

(** A press on the play control of an item that can be played starts a run
    of [performPlayback] for it. *)
Lemma step_PressPlay_starts w videoId p :
  playButton (renderVideoItem (screen w) (selectedVideos (context w).1)
                videoId) = true →
  playable (screen w) videoId →
  videoToPlayIntent (screen w) ≠ Some videoId →
  step' w (PressPlay videoId true p)
  = {| screen := pendingState videoId
                   (setVideoToPlayIntent (Some videoId) (screen w));
       context := context w;
       attempts := attempts w
                   ++ [startedRun videoId
                         (setVideoToPlayIntent (Some videoId) (screen w))] |}.
Proof.
  intros Hbutton Hplay Hintent.
  pose proof (proj1 (renderVideoItem_playButton _ _ _) Hbutton)
    as (Hcur & _ & _).
  unfold step, handle. cbv zeta. rewrite Hbutton.
  cbn [orb]. unfold handleVideoPlayback. cbn [negb].
  rewrite (bool_decide_eq_false_2 (currentlyPlaying _ = _)) by done.
  cbn [andb]. unfold useEffect_playback, withScreen. cbn [screen].
  rewrite bool_decide_eq_false_2 by (cbn; congruence).
  rewrite (performPlayback_begin_playable _ videoId); [done|done|exact Hplay].
Qed.

Lemma step_LoadSettles_last w a o videoId :
  a_done a = false →
  videoToPlayIntent (screen w) = Some videoId →
  step' {| screen := screen w; context := context w;
           attempts := attempts w ++ [a] |}
        (LoadSettles (length (attempts w)) o)
  = {| screen := performPlayback_settle a o (screen w); context := context w;
       attempts := attempts w ++ [settleAttempt a] |}.
Proof.
  intros Hdone Hintent. unfold step, handle. cbv zeta. cbn [attempts screen].
  rewrite list_lookup_middle by done. rewrite Hdone.
  unfold useEffect_playback. cbn [screen context attempts].
  rewrite performPlayback_settle_videoToPlayIntent, Hintent.
  rewrite bool_decide_eq_false_2 by done.
  rewrite performPlayback_begin_idle by done.
  cbn. rewrite app_nil_r.
  f_equal. rewrite insert_app_r_alt by done.
  by rewrite Nat.sub_diag.
Qed.

(** X13: a press on the play control that an item shows (so the item has
    no error and is not the current one), online, for an item that can be
    played and is not already requested, makes it the current item with its
    load pending; when that load then resolves with the item loaded (and, if
    it is not yet playing, [playAsync] succeeds), the item stays current, the
    play intent is cleared, no error is recorded and no retry is counted. *)
Theorem play_reaches_playing (w : World) (videoId : string) (p : Player)
    (status : AVPlaybackStatus) (play : Engine.Reply unit) :
  playButton (renderVideoItem (screen w) (selectedVideos (context w).1)
                videoId) = true →
  playable (screen w) videoId →
  videoToPlayIntent (screen w) ≠ Some videoId →
  isLoaded status = true →
  (isPlaying status = true ∨ play = Engine.Ok ()) →
  let w1 := step' w (PressPlay videoId true p) in
  let w2 := step' w1 (LoadSettles (length (attempts w))
                        (LoadResolved status play)) in
  (currentlyPlaying (screen w1) = Some videoId
   ∧ videoToPlayIntent (screen w1) = Some videoId
   ∧ length (attempts w1) = S (length (attempts w)))
  ∧ currentlyPlaying (screen w2) = Some videoId
  ∧ videoToPlayIntent (screen w2) = None
  ∧ videoErrors (screen w2) !! videoId = None
  ∧ retryAttempts (screen w2) = retryAttempts (screen w)
  ∧ videoStatusCache (screen w2) !! videoId = Some (Some status)
  ∧ pauseButton (renderVideoItem (screen w2) (selectedVideos (context w2).1)
                   videoId) = true.
Proof.
  intros Hbutton Hplay Hintent Hloaded Hok. cbv zeta.
  pose proof (proj1 (renderVideoItem_playButton _ _ _) Hbutton)
    as (_ & _ & Hkey).
  rewrite step_PressPlay_starts by done.
  split; [split_and!; [done..|cbn [attempts]; rewrite length_app; cbn; lia]|].
  pose proof (step_LoadSettles_last
    {| screen := pendingState videoId
                   (setVideoToPlayIntent (Some videoId) (screen w));
       context := context w; attempts := attempts w |}
    (startedRun videoId (setVideoToPlayIntent (Some videoId) (screen w)))
    (LoadResolved status play) videoId eq_refl eq_refl) as Hstep.
  cbn [screen context attempts] in Hstep. rewrite Hstep. cbn [screen context].
  assert (settleFails (LoadResolved status play) = None) as Hnone.
  { cbn. rewrite Hloaded. destruct Hok as [->| ->]; cbn; [done|].
    by destruct (isPlaying status). }
  assert (videoErrors
            (performPlayback_settle
               (startedRun videoId
                  (setVideoToPlayIntent (Some videoId) (screen w)))
               (LoadResolved status play)
               (pendingState videoId
                  (setVideoToPlayIntent (Some videoId) (screen w))))
            !! videoId = None) as Herr.
  { rewrite performPlayback_settle_videoErrors, Hnone. cbn.
    apply lookup_delete_eq. }
  assert (currentlyPlaying
            (performPlayback_settle
               (startedRun videoId
                  (setVideoToPlayIntent (Some videoId) (screen w)))
               (LoadResolved status play)
               (pendingState videoId
                  (setVideoToPlayIntent (Some videoId) (screen w))))
          = Some videoId) as Hcur.
  { by rewrite performPlayback_settle_currentlyPlaying, Hnone. }
  split_and!; [done | done | done | | |].
  - by rewrite performPlayback_settle_retryAttempts, Hnone.
  - unfold performPlayback_settle. cbn -[cacheStatus].
    rewrite Hloaded. destruct Hok as [->| ->]; cbn.
    + apply lookup_insert_eq.
    + destruct (isPlaying status); cbn; apply lookup_insert_eq.
  - unfold renderVideoItem. cbn -[performPlayback_settle JS.has].
    rewrite Hcur, bool_decide_eq_true_2 by done.
    by rewrite (proj2 (has_false _ _) (conj Herr Hkey)).
Qed.

End PlaybackPaths.

(** X14: a request to play an item for which [videoRefs] holds nothing (no
    player mounted), or for which the list holds no url, never becomes
    pending: no run of [performPlayback] waits for a load, the error 'Player
    not ready.' (or 'Video data missing.') is recorded for the item and one
    retry is counted, the play intent is cleared, and the current item is
    left alone unless it is that item. *)
Theorem play_request_without_player_or_source (r s : ForYou)
    (videoId : string) :
  videoToPlayIntent r = Some videoId → videoId ≠ "" →
  videoRef s videoId = false
  ∨ JS.truthy
      (VideoData.url
       <$> find (λ v, bool_decide (VideoData.id v = videoId)) (backendVideos r))
    = false →
  (performPlayback_begin r s).2 = None
  ∧ videoErrors (performPlayback_begin r s).1 !! videoId
    = Some {| message := if videoRef s videoId
                         then "Video data missing." else "Player not ready." |}
  ∧ retryAttempts (performPlayback_begin r s).1 !! videoId
    = Some (JS.plus1 (JS.orZero (retryAttempts s) videoId))
  ∧ videoToPlayIntent (performPlayback_begin r s).1 = None
  ∧ currentlyPlaying (performPlayback_begin r s).1
    = (if bool_decide (currentlyPlaying r = Some videoId)
       then None else currentlyPlaying s).
Proof.
  intros Hintent Hne Hmissing. unfold performPlayback_begin.
  rewrite Hintent. cbn -[find videoRef].
  rewrite (bool_decide_eq_false_2 _ Hne). cbn -[find videoRef].
  destruct (videoRef s videoId) eqn:Href; cbn -[find].
  - destruct Hmissing as [Hnot|Hurl]; [done|].
    rewrite Hurl. cbn -[find].
    rewrite handleVideoError_videoErrors, handleVideoError_retryAttempts,
      handleVideoError_currentlyPlaying.
    cbn. by rewrite !lookup_insert_eq.
  - rewrite handleVideoError_videoErrors, handleVideoError_retryAttempts,
      handleVideoError_currentlyPlaying.
    cbn. by rewrite !lookup_insert_eq.
Qed.

Section PlaybackEvents.

Variable JSON_stringify : list string → string.

Local Abbreviation step' := (step JSON_stringify).

(** The effect starts no run when the intent is unchanged or cleared. *)
Lemma useEffect_playback_quiet before w :
  videoToPlayIntent (screen w) = before ∨ videoToPlayIntent (screen w) = None →
  useEffect_playback before w = w.
Proof.
  intros Hw. unfold useEffect_playback.
  case_bool_decide as Hsame; [done|].
  destruct Hw as [Hw|Hw]; [done|].
  rewrite performPlayback_begin_idle by done.
  destruct w. cbn. by rewrite app_nil_r.
Qed.

Lemma step_PlaybackStatusUpdate w videoId status :
  step' w (PlaybackStatusUpdate videoId status)
  = withScreen
      (onPlaybackStatusUpdate (screen w) videoId status (screen w)) w.
Proof.
  unfold step, handle. cbv zeta. apply useEffect_playback_quiet.
  cbn [screen withScreen]. unfold onPlaybackStatusUpdate.
  destruct (bool_decide (Some videoId = currentlyPlaying (screen w))
            && isLoaded status); [|by left].
  destruct (error status) as [e|].
  - rewrite handleVideoError_videoToPlayIntent.
    destruct (bool_decide _); [by right|by left].
  - destruct (didJustFinish status); by left.
Qed.

(** X15: a status update starts no run of [performPlayback] and leaves the
    settings alone.  For an item that is not the current one, or a status
    that is not loaded, it changes neither the current item nor the play
    intent nor any error or retry count.  For the current item with a loaded
    status it records the error the status carries and frees the current
    slot; without an error it frees the slot exactly when the item has just
    finished, and records nothing. *)
Theorem status_update_effects (w : World) (videoId : string)
    (status : AVPlaybackStatus) :
  attempts (step' w (PlaybackStatusUpdate videoId status)) = attempts w
  ∧ context (step' w (PlaybackStatusUpdate videoId status)) = context w
  ∧ (if bool_decide (currentlyPlaying (screen w) = Some videoId)
        && isLoaded status
     then
       match error status with
       | Some e =>
         videoErrors (screen (step' w (PlaybackStatusUpdate videoId status)))
           !! videoId = Some (recorded e)
         ∧ currentlyPlaying
             (screen (step' w (PlaybackStatusUpdate videoId status))) = None
       | None =>
         videoErrors (screen (step' w (PlaybackStatusUpdate videoId status)))
           = videoErrors (screen w)
         ∧ retryAttempts
             (screen (step' w (PlaybackStatusUpdate videoId status)))
           = retryAttempts (screen w)
         ∧ currentlyPlaying
             (screen (step' w (PlaybackStatusUpdate videoId status)))
           = (if didJustFinish status then None else Some videoId)
       end
     else
       currentlyPlaying (screen (step' w (PlaybackStatusUpdate videoId status)))
         = currentlyPlaying (screen w)
       ∧ videoToPlayIntent
           (screen (step' w (PlaybackStatusUpdate videoId status)))
         = videoToPlayIntent (screen w)
       ∧ videoErrors (screen (step' w (PlaybackStatusUpdate videoId status)))
         = videoErrors (screen w)
       ∧ retryAttempts (screen (step' w (PlaybackStatusUpdate videoId status)))
         = retryAttempts (screen w)).
Proof.
  rewrite step_PlaybackStatusUpdate. cbn [attempts context screen withScreen].
  split_and!; [done..|].
  unfold onPlaybackStatusUpdate.
  rewrite (bool_decide_ext (Some videoId = currentlyPlaying (screen w))
             (currentlyPlaying (screen w) = Some videoId)) by done.
  destruct (bool_decide (currentlyPlaying (screen w) = Some videoId)) eqn:Hcur;
    cbn [andb]; [|done].
  destruct (isLoaded status); [|done].
  destruct (error status) as [e|].
  - rewrite handleVideoError_videoErrors, handleVideoError_currentlyPlaying,
      Hcur. by rewrite lookup_insert_eq.
  - apply bool_decide_eq_true in Hcur.
    by destruct (didJustFinish status).
Qed.

Lemma step_PressRetry_starts w videoId :
  retryButton (renderVideoItem (screen w) (selectedVideos (context w).1)
                 videoId) = true →
  playable (screen w) videoId →
  videoToPlayIntent (screen w) ≠ Some videoId →
  step' w (PressRetry videoId)
  = {| screen := pendingState videoId (retryVideo videoId (screen w));
       context := context w;
       attempts := attempts w
                   ++ [startedRun videoId (retryVideo videoId (screen w))] |}.
Proof.
  intros Hbutton Hplay Hintent. unfold step, handle. cbv zeta.
  rewrite Hbutton. unfold useEffect_playback, withScreen. cbn [screen].
  rewrite bool_decide_eq_false_2 by (cbn; congruence).
  rewrite (performPlayback_begin_playable _ videoId); [done|done|exact Hplay].
Qed.

(** X16: a press on the retry control of an item that can be played deletes
    its error and its retry count and starts a run for it; when that run
    fails once, the error is back and the retry count is 1, whatever it was
    before the retry, so the retry control is shown again.  (For an item
    whose id names a member of [Object.prototype] the count that comes back
    is no number, and the control is not shown again.) *)
Theorem retry_then_failure_counts_one (w : World) (videoId m : string) :
  retryButton (renderVideoItem (screen w) (selectedVideos (context w).1)
                 videoId) = true →
  playable (screen w) videoId →
  videoToPlayIntent (screen w) ≠ Some videoId →
  let w1 := step' w (PressRetry videoId) in
  let w2 := step' w1 (LoadSettles (length (attempts w)) (LoadThrew m)) in
  (videoErrors (screen w1) !! videoId = None
   ∧ retryAttempts (screen w1) !! videoId = None
   ∧ currentlyPlaying (screen w1) = Some videoId)
  ∧ videoErrors (screen w2) !! videoId = Some (recorded m)
  ∧ retryAttempts (screen w2) !! videoId
    = Some (if JS.inherited videoId then JS.NotNum else JS.Num 1)
  ∧ retryButton (renderVideoItem (screen w2) (selectedVideos (context w2).1)
                   videoId) = negb (JS.inherited videoId).
Proof.
  intros Hbutton Hplay Hintent. cbv zeta.
  rewrite step_PressRetry_starts by done.
  split; [split_and!; [cbn; apply lookup_delete_eq..|done]|].
  pose proof (step_LoadSettles_last JSON_stringify
    {| screen := pendingState videoId (retryVideo videoId (screen w));
       context := context w; attempts := attempts w |}
    (startedRun videoId (retryVideo videoId (screen w)))
    (LoadThrew m) videoId eq_refl eq_refl) as Hstep.
  cbn [screen context attempts] in Hstep. rewrite Hstep. cbn [screen context].
  assert (videoErrors
            (performPlayback_settle
               (startedRun videoId (retryVideo videoId (screen w)))
               (LoadThrew m)
               (pendingState videoId (retryVideo videoId (screen w))))
            !! videoId = Some (recorded m)) as Herr.
  { rewrite performPlayback_settle_videoErrors. cbn. apply lookup_insert_eq. }
  assert (retryAttempts
            (performPlayback_settle
               (startedRun videoId (retryVideo videoId (screen w)))
               (LoadThrew m)
               (pendingState videoId (retryVideo videoId (screen w))))
            !! videoId
          = Some (if JS.inherited videoId then JS.NotNum else JS.Num 1))
    as Hcount.
  { rewrite performPlayback_settle_retryAttempts. cbn -[JS.orZero].
    rewrite lookup_insert_eq. unfold JS.orZero, JS.get.
    rewrite lookup_delete_eq. by destruct (JS.inherited videoId). }
  split_and!; [done..|].
  unfold renderVideoItem. cbn -[performPlayback_settle JS.has JS.orZero].
  rewrite (has_own _ _ (mk_is_Some _ _ Herr)), (orZero_own _ _ _ Hcount).
  destruct (JS.inherited videoId); cbn; by destruct (bool_decide _).
Qed.

End PlaybackEvents.

(** * Properties of the list of videos *)

Lemma valid_video entry v :
  Backend.valid entry = Some v →
  Backend.id v ≠ "" ∧ Backend.url v ≠ ""
  ∧ ∃ raw, entry = Some raw
           ∧ Backend.raw_id raw = Some (Backend.id v)
           ∧ Backend.raw_url raw = Some (Backend.url v).
Proof.
  unfold Backend.valid. destruct entry as [[rid rurl rthumb]|]; [|done].
  cbn. destruct rid as [i|]; cbn; [|done].
  case_bool_decide as Hi; cbn; [done|].
  destruct rurl as [u|]; cbn; [|done].
  case_bool_decide as Hu; cbn; [done|].
  intros [= <-]. cbn. eauto 10.
Qed.

Lemma find_listed (videoId : string) (l : list VideoData.t) :
  videoId ∈ VideoData.id <$> l →
  ∃ v, find (λ v, bool_decide (VideoData.id v = videoId)) l = Some v ∧ v ∈ l.
Proof.
  induction l as [|x l IH]; cbn; [by intros ?%elem_of_nil|].
  intros Hin. case_bool_decide as Hx.
  - exists x. split; [done|by left].
  - apply elem_of_cons in Hin as [Heq|Hin]; [congruence|].
    destruct (IH Hin) as (v & Hfind & Hv). exists v. split; [done|by right].
Qed.

(** X17: [fetchVideos] always ends with the loading flag cleared.  Offline
    it keeps the list it had and reports no connection.  Online, a response
    with a body installs exactly the entries that have a non-empty id and a
    non-empty url, in their order, with no error; every other end (timeout,
    thrown error, HTTP status) empties the list and reports an error. *)
Theorem fetchVideos_spec (online : bool) (resp : Backend.Response)
    (l : Backend.Listing) :
  Backend.backendLoading (Backend.fetchVideos online resp l) = false
  ∧ (if online then
       Forall (λ v, Backend.id v ≠ "" ∧ Backend.url v ≠ "")
         (Backend.videos (Backend.fetchVideos online resp l))
       ∧ match resp with
         | Backend.Body entries =>
           Backend.backendError (Backend.fetchVideos online resp l) = None
           ∧ Backend.videos (Backend.fetchVideos online resp l)
             = omap Backend.valid entries
           ∧ ∀ v, v ∈ Backend.videos (Backend.fetchVideos online resp l) ↔
                  ∃ raw, Some raw ∈ entries
                         ∧ Backend.valid (Some raw) = Some v
         | _ =>
           Backend.videos (Backend.fetchVideos online resp l) = []
           ∧ is_Some (Backend.backendError (Backend.fetchVideos online resp l))
         end
     else
       Backend.videos (Backend.fetchVideos online resp l) = Backend.videos l
       ∧ Backend.backendError (Backend.fetchVideos online resp l)
         = Some "No internet connection.").
Proof.
  destruct online; cbn; [|done]. split; [by destruct resp|].
  destruct resp as [|m|status|entries]; cbn; try (split; [done|eauto]).
  split.
  - unfold Backend.validVideos. apply Forall_forall. intros v Hv.
    apply list_elem_of_omap in Hv as (entry & _ & Hvalid).
    by destruct (valid_video _ _ Hvalid) as (? & ? & _).
  - split_and!; [done..|]. intros v. unfold Backend.validVideos.
    rewrite list_elem_of_omap. split.
    + intros ([raw|] & Hin & Hvalid); [eauto|done].
    + intros (raw & Hin & Hvalid). eauto.
Qed.

(** X18: every video of a fetched list whose entry in [videoRefs] is truthy
    can be played: its id is not empty and the first entry with that id has
    a url, so a play request for it is never refused with 'Video data
    missing.'. *)
Theorem listed_video_is_playable (entries : list (option Backend.Raw))
    (s : ForYou) (videoId : string) :
  backendVideos s = Backend.videoData <$> Backend.validVideos entries →
  videoId ∈ VideoData.id <$> backendVideos s →
  videoRef s videoId = true →
  playable s videoId.
Proof.
  intros Hlist Hin Href.
  destruct (find_listed _ _ Hin) as (v & Hfind & Hv).
  rewrite Hlist in Hv. apply list_elem_of_fmap in Hv as (bv & -> & Hbv).
  unfold Backend.validVideos in Hbv.
  apply list_elem_of_omap in Hbv as (entry & _ & Hvalid).
  destruct (valid_video _ _ Hvalid) as (Hid & Hurl & _).
  assert (VideoData.id (Backend.videoData bv) = videoId) as Hidv.
  { apply find_some in Hfind as [_ Hdec]. by apply bool_decide_eq_true in Hdec. }
  split_and!; [by rewrite <- Hidv | done |].
  rewrite Hfind. cbn. by rewrite bool_decide_eq_false_2.
Qed.

(** X19: the displayed list is a sublist of the fetched one (same videos,
    same order); outside restricted mode it is the whole list, and in
    restricted mode it holds exactly the listed videos whose id is
    selected. *)
Theorem filteredVideos_spec (isApprovedOnlyMode : bool)
    (selected : list string) (backend : list VideoData.t) :
  filteredVideos isApprovedOnlyMode selected backend `sublist_of` backend
  ∧ filteredVideos false selected backend = backend
  ∧ (∀ v, v ∈ filteredVideos true selected backend ↔
          v ∈ backend ∧ VideoData.id v ∈ selected)
  ∧ filteredVideos true [] backend = [].
Proof.
  unfold filteredVideos. split_and!.
  - destruct isApprovedOnlyMode; [apply sublist_filter|done].
  - done.
  - intros v. rewrite list_elem_of_filter. unfold JS.includes.
    rewrite bool_decide_eq_true. tauto.
  - induction backend as [|v backend IH]; [done|].
    rewrite filter_cons_False; [done|].
    unfold JS.includes. rewrite bool_decide_eq_false_2; [done|].
    apply not_elem_of_nil.
Qed.

(** * Properties of the purchase *)

Lemma errorMessage_not_empty (message : string) :
  Stripe.errorMessage message ≠ "".
Proof.
  unfold Stripe.errorMessage.
  destruct (string_includes "User not authenticated" message); [done|].
  destruct (string_includes "network" message || string_includes "fetch" message);
    [done|].
  destruct (string_includes "email" message); [done|].
  cbn. case_bool_decide; cbn; [done|done].
Qed.

(** X20: a purchase grants the entitlement exactly when the payment sheet
    completes, whatever the confirmation request to the backend does, and
    never takes it away; it ends with the purchase flag cleared (when
    offline it does not touch the flag); it shows the unlock alert exactly
    when it grants and shows nothing exactly when the user cancelled the
    sheet.  A sheet that fails otherwise is reported in the alert 'Payment
    Failed' with the message of the sheet as it is, empty or not; the message
    of the alert 'Payment Error' is never empty.  The playback state is not
    touched. *)
Theorem purchase_effects (run : Stripe.Run) (s : ForYou) :
  hasSimulatedPremium (Stripe.handleStripePayment run s).1
  = hasSimulatedPremium s
    || match run with Stripe.Paid _ => true | _ => false end
  ∧ isSimulatingPurchase (Stripe.handleStripePayment run s).1
    = match run with
      | Stripe.Offline => isSimulatingPurchase s
      | _ => false
      end
  ∧ ((Stripe.handleStripePayment run s).2 = Some Stripe.PremiumUnlocked
     ↔ ∃ c, run = Stripe.Paid c)
  ∧ ((Stripe.handleStripePayment run s).2 = None
     ↔ ∃ m, run = Stripe.SheetFailed "Canceled" m)
  ∧ (∀ m, (Stripe.handleStripePayment run s).2 = Some (Stripe.PaymentFailed m)
          ↔ ∃ code, code ≠ "Canceled" ∧ run = Stripe.SheetFailed code m)
  ∧ (∀ m, (Stripe.handleStripePayment run s).2 = Some (Stripe.PaymentError m)
          → m ≠ "")
  ∧ currentlyPlaying (Stripe.handleStripePayment run s).1 = currentlyPlaying s
  ∧ videoToPlayIntent (Stripe.handleStripePayment run s).1
    = videoToPlayIntent s
  ∧ videoErrors (Stripe.handleStripePayment run s).1 = videoErrors s
  ∧ retryAttempts (Stripe.handleStripePayment run s).1 = retryAttempts s.
Proof.
  split_and!.
  - destruct run; cbn; by rewrite ?orb_false_r, ?orb_true_r.
  - by destruct run.
  - split.
    + destruct run as [| |m|err status|m|code m|c]; cbn; try done; [|eauto].
      by case_bool_decide.
    + intros [c ->]. reflexivity.
  - split.
    + destruct run as [| |m|err status|m|code m|c]; cbn; try done.
      case_bool_decide as Hcode; [|done]. subst code. eauto.
    + intros [m ->]. reflexivity.
  - intros m. split.
    + destruct run as [| |m0|err status|m0|code m0|c]; cbn; try done.
      case_bool_decide as Hcode; [done|]. intros [= ->]. eauto.
    + intros (code & Hcode & ->). cbn.
      by rewrite bool_decide_eq_false_2.
  - intros m.
    destruct run as [| |m0|err status|m0|code m0|c];
      cbn -[Stripe.errorMessage]; try done;
      try (intros [= <-]; apply errorMessage_not_empty).
    by case_bool_decide.
  - by destruct run.
  - by destruct run.
  - by destruct run.
  - by destruct run.
Qed.

Section UnlockFlow.

Variable JSON_stringify : list string → string.

Local Abbreviation requestSelection :=
  (handleToggleVideoSelection JSON_stringify).

(** X21: when a selection is refused for want of the entitlement, the
    purchase offered by the alert, once paid and acknowledged, performs the
    refused toggle: the id is appended to the selection, which then has more
    than 5 entries, and with the entitlement held no later request is
    refused.  A purchase that does not complete leaves the selection and the
    entitlement as they were. *)
Theorem unlock_then_select (s : ForYou) (w : Settings * AsyncStorage.t)
    (videoId : string) (ok : bool) (c : Stripe.Confirm) :
  isSimulatingPurchase s = false →
  hasSimulatedPremium s = false →
  videoId ∉ selectedVideos w.1 →
  MAX_FREE_SELECTIONS ≤ length (selectedVideos w.1) →
  requestSelection s w.1 videoId ok w = (UpgradeAlert, w)
  ∧ (unlockPremium JSON_stringify (Stripe.Paid c) w.1 videoId ok s w).1.2
    = Some Stripe.PremiumUnlocked
  ∧ hasSimulatedPremium
      (unlockPremium JSON_stringify (Stripe.Paid c) w.1 videoId ok s w).1.1
    = true
  ∧ selectedVideos
      (unlockPremium JSON_stringify (Stripe.Paid c) w.1 videoId ok s w).2.1
    = selectedVideos w.1 ++ [videoId]
  ∧ (∀ videoId' ok',
       ∃ p, (requestSelection
               (unlockPremium JSON_stringify (Stripe.Paid c) w.1 videoId ok
                  s w).1.1
               (unlockPremium JSON_stringify (Stripe.Paid c) w.1 videoId ok
                  s w).2.1
               videoId' ok'
               (unlockPremium JSON_stringify (Stripe.Paid c) w.1 videoId ok
                  s w).2).1 = Toggled p)
  ∧ (∀ run, (∀ c', run ≠ Stripe.Paid c') →
       (unlockPremium JSON_stringify run w.1 videoId ok s w).2 = w
       ∧ hasSimulatedPremium
           (unlockPremium JSON_stringify run w.1 videoId ok s w).1.1 = false).
Proof.
  intros Hpurchase Hprem Hnot Hfull. split_and!.
  - unfold handleToggleVideoSelection, JS.includes.
    rewrite Hpurchase, Hprem, (bool_decide_eq_false_2 _ Hnot),
      (bool_decide_eq_true_2 _ Hfull). done.
  - done.
  - done.
  - unfold unlockPremium. cbn. rewrite toggle_state. cbn.
    unfold newSelectedVideos, JS.includes.
    by rewrite (bool_decide_eq_false_2 _ Hnot).
  - intros videoId' ok'. unfold unlockPremium. cbn -[handleToggleVideoSelection].
    unfold handleToggleVideoSelection. cbn. rewrite andb_false_r.
    destruct (toggleVideoSelectionInContext _ _ videoId' ok' _) as [p w'].
    by exists p.
  - intros run Hrun. unfold unlockPremium.
    destruct run as [| |m|err status|m|code m|c']; cbn;
      try (split; [done|exact Hprem]).
    + by destruct (bool_decide (code = "Canceled")).
    + by destruct (Hrun c').
Qed.

End UnlockFlow.

(** * Runs of performPlayback and their timers *)

Section Runs.

Variable JSON_stringify : list string → string.

Local Abbreviation step' := (step JSON_stringify).

Lemma step_quiet w e :
  videoToPlayIntent (screen (handle JSON_stringify w e))
    = videoToPlayIntent (screen w)
  ∨ videoToPlayIntent (screen (handle JSON_stringify w e)) = None →
  step' w e = handle JSON_stringify w e.
Proof. intros Hq. unfold step. by apply useEffect_playback_quiet. Qed.

Lemma step_LoadTimesOut w n :
  step' w (LoadTimesOut n) = handle JSON_stringify w (LoadTimesOut n).
Proof.
  apply step_quiet. unfold handle. cbv zeta.
  destruct (attempts w !! n) as [a|]; [|by left].
  destruct (a_timer a && negb (a_done a)); [|by left].
  cbn. unfold performPlayback_timeout.
  rewrite handleVideoError_videoToPlayIntent.
  destruct (bool_decide _); [by right|by left].
Qed.

Lemma step_LoadSettles w n o :
  step' w (LoadSettles n o) = handle JSON_stringify w (LoadSettles n o).
Proof.
  apply step_quiet. unfold handle. cbv zeta.
  destruct (attempts w !! n) as [a|]; [|by left].
  destruct (a_done a); [by left|by right].
Qed.

Lemma handle_ended w e n :
  ended w n → ended (handle JSON_stringify w e) n.
Proof.
  intros (a & Ha & Hdone & Htimer).
  destruct e as [v online p|v|v ok|k o|k|v status|v m];
    unfold handle; cbv zeta.
  - destruct (playButton _ || pauseButton _); by exists a.
  - destruct (retryButton _); by exists a.
  - by exists a.
  - destruct (attempts w !! k) as [a'|] eqn:Hk; [|by exists a].
    destruct (a_done a') eqn:Hdone'; [by exists a|].
    exists a. cbn [attempts]. split; [|done].
    rewrite list_lookup_insert_ne; [done|]. intros ->. congruence.
  - destruct (attempts w !! k) as [a'|] eqn:Hk; [|by exists a].
    destruct (a_timer a' && negb (a_done a')) eqn:Harmed; [|by exists a].
    exists a. cbn [attempts]. split; [|done].
    rewrite list_lookup_insert_ne; [done|]. intros ->.
    assert (a' = a) as -> by congruence.
    by rewrite Htimer in Harmed.
  - by exists a.
  - by exists a.
Qed.

Lemma step_ended w e n : ended w n → ended (step' w e) n.
Proof.
  intros (a & Ha & Hdone)%(handle_ended w e).
  unfold step, useEffect_playback.
  destruct (bool_decide _); [by exists a|].
  destruct (performPlayback_begin _ _) as [s b]. exists a. cbn [attempts].
  split; [|done]. by apply lookup_app_l_Some.
Qed.

Lemma run_ended w es n : ended w n → ended (run JSON_stringify w es) n.
Proof.
  revert w. induction es as [|e es IH]; intros w Hw; [done|].
  cbn. apply IH. by apply step_ended.
Qed.

Lemma step_LoadSettles_ends w n a o :
  attempts w !! n = Some a → a_done a = false →
  ended (step' w (LoadSettles n o)) n.
Proof.
  intros Ha Hdone. rewrite step_LoadSettles. unfold handle. cbv zeta.
  rewrite Ha, Hdone. exists (settleAttempt a). cbn [attempts].
  split; [|done]. apply list_lookup_insert_eq. by eapply lookup_lt_Some.
Qed.

Lemma ended_quiet w n :
  ended w n →
  step' w (LoadTimesOut n) = w ∧ ∀ o, step' w (LoadSettles n o) = w.
Proof.
  intros (a & Ha & Hdone & Htimer).
  split; [|intros o]; rewrite ?step_LoadTimesOut, ?step_LoadSettles;
    unfold handle; cbv zeta; by rewrite Ha, ?Hdone, ?Htimer.
Qed.

(** X22: the end of a run of [performPlayback] clears its timer, whether
    the timer has fired or is still armed: after the run has ended, and
    after whatever events follow, neither its timer nor a second completion
    changes anything (so a run that ended playing is never marked as timed
    out afterwards).  A timer that has fired cannot fire again; a run whose
    timer fires and whose load then fails counts two retries for its item,
    and the error of the failure replaces the one of the timeout. *)
Theorem run_ends_once (w : World) (n : nat) (a : Attempt) (m : string)
    (o o' : LoadOutcome) (es : list Event) :
  attempts w !! n = Some a → a_done a = false →
  (let w1 := run JSON_stringify (step' w (LoadSettles n o)) es in
   step' w1 (LoadTimesOut n) = w1 ∧ step' w1 (LoadSettles n o') = w1)
  ∧ (a_timer a = true →
     let w1 := step' w (LoadTimesOut n) in
     let w2 := step' w1 (LoadSettles n (LoadThrew m)) in
     videoErrors (screen w1) !! a_videoId a
       = Some {| message := "Video loading timed out." |}
     ∧ step' w1 (LoadTimesOut n) = w1
     ∧ videoErrors (screen w2) !! a_videoId a = Some (recorded m)
     ∧ retryAttempts (screen w2) !! a_videoId a
       = Some (JS.plus1
                 (JS.plus1 (JS.orZero (retryAttempts (screen w)) (a_videoId a))))
     ∧ step' w2 (LoadTimesOut n) = w2
     ∧ step' w2 (LoadSettles n o') = w2).
Proof.
  intros Ha Hdone. split.
  - cbv zeta.
    destruct (ended_quiet _ n
                (run_ended _ es n (step_LoadSettles_ends w n a o Ha Hdone)))
      as [Htimeout Hsettle].
    split; [exact Htimeout|apply Hsettle].
  - intros Htimer. cbv zeta.
    assert (n < length (attempts w)) as Hn by by eapply lookup_lt_Some.
    rewrite !step_LoadTimesOut, !step_LoadSettles.
    assert (handle JSON_stringify w (LoadTimesOut n)
            = {| screen := performPlayback_timeout a (screen w);
                 context := context w;
                 attempts := <[n := disarmTimer a]> (attempts w) |}) as ->.
    { unfold handle. cbv zeta. by rewrite Ha, Htimer, Hdone. }
    assert (handle JSON_stringify
              {| screen := performPlayback_timeout a (screen w);
                 context := context w;
                 attempts := <[n := disarmTimer a]> (attempts w) |}
              (LoadSettles n (LoadThrew m))
            = {| screen := performPlayback_settle (disarmTimer a) (LoadThrew m)
                             (performPlayback_timeout a (screen w));
                 context := context w;
                 attempts := <[n := settleAttempt a]> (attempts w) |}) as ->.
    { unfold handle. cbv zeta. cbn [attempts screen context].
      rewrite list_lookup_insert_eq by done. cbn [a_done disarmTimer].
      rewrite Hdone. by rewrite list_insert_insert_eq. }
    unfold handle. cbv zeta. cbn [attempts screen context].
    rewrite !list_lookup_insert_eq by done. cbn [a_timer a_done disarmTimer
      settleAttempt andb negb].
    split_and!; [|done| | |done|done].
    + unfold performPlayback_timeout. rewrite handleVideoError_videoErrors.
      by rewrite lookup_insert_eq.
    + rewrite performPlayback_settle_videoErrors. cbn.
      by rewrite lookup_insert_eq.
    + rewrite performPlayback_settle_retryAttempts. cbn -[JS.orZero].
      rewrite lookup_insert_eq. unfold performPlayback_timeout.
      rewrite handleVideoError_retryAttempts.
      by rewrite (orZero_own _ _ _ (lookup_insert_eq _ _ _)).
Qed.


End Runs.

(** * The further properties at concrete inputs *)

(** X2, witness: after a session with a failed save, a reload finds the PIN
    of the save that succeeded. *)
Lemma pin_agrees_with_storage_witness :
  pin (load PlainJSON.parse readsOk
         (runSession PlainJSON.stringify MoreExamples.mixed
            MoreExamples.fresh).2)
  = pin (runSession PlainJSON.stringify MoreExamples.mixed
           MoreExamples.fresh).1.
Proof.
  assert (pinMirrors MoreExamples.fresh) as Hm by by vm_compute.
  destruct (pin_agrees_with_storage PlainJSON.parse PlainJSON.stringify
              MoreExamples.fresh MoreExamples.mixed readsOk Hm) as [_ H].
  apply H; [reflexivity|]. by vm_compute.
Defined.

(** X3, witness: the mode after two successful toggles is read back. *)
Lemma restrictedMode_agrees_with_storage_witness :
  restrictedMode
    (load PlainJSON.parse readsOk
       (runSession PlainJSON.stringify MoreExamples.mixed MoreExamples.fresh).2)
  = restrictedMode
      (runSession PlainJSON.stringify MoreExamples.mixed MoreExamples.fresh).1.
Proof.
  assert (modeMirrors MoreExamples.fresh) as Hm by by vm_compute.
  assert (modeWritesOk MoreExamples.mixed) as Hops.
  { unfold modeWritesOk, MoreExamples.mixed. repeat constructor; done. }
  destruct (restrictedMode_agrees_with_storage PlainJSON.parse
              PlainJSON.stringify MoreExamples.fresh MoreExamples.mixed
              readsOk Hm Hops) as [_ H].
  apply H; reflexivity.
Defined.


(** X4, witness: a selected video is read back. *)
Lemma selection_survives_reload_witness :
  selectedVideos
    (load PlainJSON.parse readsOk
       (toggleVideoSelectionInContext PlainJSON.stringify
          MoreExamples.fresh.1 "a" true MoreExamples.fresh).2.2)
  = JSON.ofStrings
      (selectedVideos
         (toggleVideoSelectionInContext PlainJSON.stringify
            MoreExamples.fresh.1 "a" true MoreExamples.fresh).2.1).
Proof.
  apply (selection_survives_reload PlainJSON.parse PlainJSON.stringify
           MoreExamples.fresh "a").
  - by vm_compute.
  - by vm_compute.
Defined.

(** X7, witness: a PIN set on the setup screen is found again by a load. *)
Lemma handleSetPin_spec_witness :
  isPinSet
    (load PlainJSON.parse readsOk
       (PinSetup.handleSetPin true MoreExamples.setup MoreExamples.fresh).2.2)
  = true.
Proof.
  pose proof (handleSetPin_spec PlainJSON.parse true MoreExamples.setup
                MoreExamples.fresh readsOk) as H.
  change ((PinSetup.handleSetPin true MoreExamples.setup
             MoreExamples.fresh).1.1) with PinSetup.Saved in H.
  destruct H as (_ & _ & _ & _ & _ & _ & H).
  by destruct (H eq_refl) as [H1 _].
Defined.

(** X8, witness: the held PIN, typed and submitted, is among what was
    typed. *)
Lemma settings_reached_only_with_pin_witness :
  ∃ v, PinEntry.TypePin v
       ∈ [PinEntry.TypePin "0000"; PinEntry.PressUnlock; PinEntry.CloseAlert;
          PinEntry.TypePin "1234"; PinEntry.PressUnlock; PinEntry.CloseAlert]
       ∧ pin MoreExamples.withPin = Some v ∧ 4 ≤ String.length v.
Proof.
  eapply (settings_reached_only_with_pin MoreExamples.withPin).
  by vm_compute.
Defined.

(** X9, witness: after two failed attempts, the held PIN still unlocks. *)
Lemma pin_entry_attempts_witness :
  (PinEntry.session MoreExamples.withPin
     (PinEntry.handleVerifyPin MoreExamples.withPin
        (PinEntry.setEnteredPin "0000"
           (PinEntry.handleVerifyPin MoreExamples.withPin
              (PinEntry.setEnteredPin "1111" PinEntry.initial))))
     [PinEntry.TypePin "1234"; PinEntry.PressUnlock; PinEntry.CloseAlert]).2
  = Some PinEntry.ToSettings.
Proof.
  assert (4 ≤ String.length "1234") as Hlen by (cbn; lia).
  destruct (pin_entry_attempts MoreExamples.withPin
              (PinEntry.handleVerifyPin MoreExamples.withPin
                 (PinEntry.setEnteredPin "0000"
                    (PinEntry.handleVerifyPin MoreExamples.withPin
                       (PinEntry.setEnteredPin "1111" PinEntry.initial))))
              "1234" Hlen) as [_ H].
  apply H. reflexivity.
Defined.

(** X10, witness: five digits, a delete and a digit. *)
Lemma pin_input_bounded_witness :
  String.length
    (PinInput.presses false ["1"; "2"; "3"; "4"; "5"; "<"; "6"] "").1
  ≤ PinInput.PIN_LENGTH.
Proof.
  apply (pin_input_bounded true false ["1"; "2"; "3"; "4"; "5"; "<"; "6"] "").
  - unfold PinInput.keys. repeat constructor; set_solver.
  - cbn. lia.
Defined.

(** X11, witness: with five selected and no entitlement, a press on a sixth
    and a press on play leave five selected. *)
Lemma free_selection_capped_witness :
  length
    (selectedVideos
       (context
          (run PlainJSON.stringify MoreExamples.fiveSelected
             [PressSelect "v6" true; PressPlay "a" true Examples.player;
              PressSelect "v1" true; PressSelect "v7" false])).1)
  ≤ MAX_FREE_SELECTIONS.
Proof.
  apply (free_selection_capped PlainJSON.stringify MoreExamples.fiveSelected).
  - reflexivity.
  - cbn. unfold MAX_FREE_SELECTIONS. lia.
Defined.

(** X12, witness: the failure of the load of a leaves b alone. *)
Lemma errors_scoped_to_item_witness :
  videoErrors
    (screen (step PlainJSON.stringify MoreExamples.loadingA
               (LoadSettles 0 (LoadThrew "boom")))) !! "b"
  = videoErrors (screen MoreExamples.loadingA) !! "b".
Proof.
  apply (errors_scoped_to_item PlainJSON.stringify MoreExamples.loadingA
           (LoadSettles 0 (LoadThrew "boom")) "b").
  by vm_compute.
Defined.

Lemma playable_idle_a : playable Examples.idle "a".
Proof. split_and!; [done | by vm_compute | by vm_compute]. Qed.

(** X13, witness: item a played from the idle screen. *)
Lemma play_reaches_playing_witness :
  currentlyPlaying
    (screen
       (step PlainJSON.stringify
          (step PlainJSON.stringify Examples.world0
             (PressPlay "a" true Examples.player))
          (LoadSettles 0 (LoadResolved Examples.playing (Engine.Ok ())))))
  = Some "a".
Proof.
  apply (play_reaches_playing PlainJSON.stringify Examples.world0 "a"
           Examples.player Examples.playing (Engine.Ok ())).
  - by vm_compute.
  - exact playable_idle_a.
  - done.
  - reflexivity.
  - by left.
Defined.

(** X14, witness: a request for an item without player. *)
Lemma play_request_without_player_or_source_witness :
  (performPlayback_begin MoreExamples.wantsMissing MoreExamples.wantsMissing).2
  = None.
Proof.
  apply (play_request_without_player_or_source MoreExamples.wantsMissing
           MoreExamples.wantsMissing "c").
  - reflexivity.
  - done.
  - left. by vm_compute.
Defined.

(** X16, witness: after two failures, a retry and a third failure leave the
    count at 1. *)
Lemma retry_then_failure_counts_one_witness :
  retryAttempts
    (screen
       (step PlainJSON.stringify
          (step PlainJSON.stringify MoreExamples.failedTwice (PressRetry "a"))
          (LoadSettles 0 (LoadThrew "boom")))) !! "a"
  = Some (JS.Num 1).
Proof.
  apply (retry_then_failure_counts_one PlainJSON.stringify
           MoreExamples.failedTwice "a" "boom").
  - by vm_compute.
  - exact playable_idle_a.
  - done.
Defined.

(** X18, witness: the valid entry of the example body can be played. *)
Lemma listed_video_is_playable_witness : playable MoreExamples.fetched "a".
Proof.
  apply (listed_video_is_playable MoreExamples.body MoreExamples.fetched "a").
  - reflexivity.
  - apply (bool_decide_unpack _). by vm_compute.
  - by vm_compute.
Defined.

(** X21, witness: the sixth video is selected after the purchase. *)
Lemma unlock_then_select_witness :
  selectedVideos
    (unlockPremium PlainJSON.stringify (Stripe.Paid Stripe.ConfirmThrew)
       Examples.five "v6" true Examples.idle (Examples.five, ∅)).2.1
  = selectedVideos Examples.five ++ ["v6"].
Proof.
  apply (unlock_then_select PlainJSON.stringify Examples.idle
           (Examples.five, ∅) "v6" true Stripe.ConfirmThrew).
  - reflexivity.
  - reflexivity.
  - apply (bool_decide_unpack _). by vm_compute.
  - cbn. unfold MAX_FREE_SELECTIONS. lia.
Defined.

(** X22, witness: the run for a ends playing with its timer armed; after a
    press on play for b, the timer of the run for a changes nothing. *)
Lemma run_ends_once_witness :
  step PlainJSON.stringify
    (run PlainJSON.stringify
       (step PlainJSON.stringify MoreExamples.loadingA
          (LoadSettles 0 (LoadResolved Examples.playing (Engine.Ok ()))))
       [PressPlay "b" true Examples.player])
    (LoadTimesOut 0)
  = run PlainJSON.stringify
      (step PlainJSON.stringify MoreExamples.loadingA
         (LoadSettles 0 (LoadResolved Examples.playing (Engine.Ok ()))))
      [PressPlay "b" true Examples.player].
Proof.
  pose proof (run_ends_once PlainJSON.stringify MoreExamples.loadingA 0
                (startedRun "a" (setVideoToPlayIntent (Some "a") Examples.idle))
                "boom" (LoadResolved Examples.playing (Engine.Ok ()))
                (LoadThrew "boom") [PressPlay "b" true Examples.player]
                eq_refl eq_refl) as [[H _] _].
  exact H.
Defined.


